(** * Superheroes API server: the comparison endpoint and its neighbours

    A shallow embedding of [backend/src/server.ts]: the four GET handlers
    ([/api/superheroes], [/api/superheroes/compare], [/api/superheroes/:id],
    [/api/superheroes/:id/powerstats]) together with the fragments of the
    JavaScript run time they rely on ([Number], [isNaN], [String], [===],
    [>], [Array.prototype.find], [Array.prototype.map]).

    Conventions.
    - A JavaScript string is a [string]; each character stands for one code
      unit below 256.
    - A JavaScript number is a binary64 value, [spec_float] at precision 53.
    - Catalog identifiers and powerstat values are integers (the [Superhero]
      interface of the repository types them [number], the catalog holds
      integers), kept as [Z].
    - A [powerstats] object is a finite map from property names to values;
      reading an absent property gives [None] (JavaScript's [undefined]). *)

From Stdlib Require Import ZArith List Bool Ascii String DecimalString.
From Stdlib Require Import Floats.SpecFloat.
From Stdlib Require DecimalPos DecimalZ.
From stdpp Require Import gmap strings list.

Set Warnings "-register-all".

Open Scope Z_scope.
Open Scope string_scope.

(** ** JavaScript numbers and coercions *)

Module JS.

Definition number : Type := spec_float.

Definition prec : Z := 53.
Definition emax : Z := 1024.

Definition NaN : number := S754_nan.

(** The number denoted by an integer literal or an integer read from JSON. *)
Definition of_Z (z : Z) : number := binary_normalize prec emax z 0 false.

(** [m / d] rounded to nearest, ties to even; [d] is positive. *)
Definition of_ratio (neg : bool) (m d : positive) : number :=
  SFdiv prec emax (S754_finite neg m 0) (S754_finite false d 0).

(** [m * 10 ^ e] as a number, with the sign [neg]. *)
Definition of_decimal (neg : bool) (m : N) (e : Z) : number :=
  match m with
  | N0 => S754_zero neg
  | Npos p =>
      match e with
      | Zneg k => of_ratio neg p (Pos.pow 10 k)
      | _ => binary_normalize prec emax
               ((if neg then Z.neg p else Z.pos p) * 10 ^ e) 0 false
      end
  end.

Definition isNaN (n : number) : bool :=
  match n with S754_nan => true | _ => false end.

(** [a === b] on two numbers. *)
Definition strict_eq (a b : number) : bool := SFeqb a b.

(** *** StringToNumber *)

Definition is_whitespace (c : ascii) : bool :=
  let n := N_of_ascii c in
  ((9 <=? n) && (n <=? 13) || (n =? 32) || (n =? 160))%N.

Definition digit_value (base : N) (c : ascii) : option N :=
  let n := N_of_ascii c in
  let v :=
    if ((48 <=? n) && (n <=? 57))%N then Some (n - 48)%N
    else if ((97 <=? n) && (n <=? 102))%N then Some (n - 87)%N
    else if ((65 <=? n) && (n <=? 70))%N then Some (n - 55)%N
    else None in
  match v with
  | Some d => if (d <? base)%N then Some d else None
  | None => None
  end.

Fixpoint trim_start (s : list ascii) : list ascii :=
  match s with
  | c :: s' => if is_whitespace c then trim_start s' else s
  | [] => []
  end.

Definition trim (s : list ascii) : list ascii :=
  rev (trim_start (rev (trim_start s))).

(** The longest prefix of digits of [base], most significant first, and
    what follows it. *)
Fixpoint digits (base : N) (s : list ascii) : list N * list ascii :=
  match s with
  | c :: s' =>
      match digit_value base c with
      | Some d => let '(ds, r) := digits base s' in (d :: ds, r)
      | None => ([], s)
      end
  | [] => ([], [])
  end.

Definition digits_value (base : N) (ds : list N) : N :=
  fold_left (fun acc d => acc * base + d)%N ds 0%N.

(** ExponentPart, optional: the exponent when the text is empty or a
    well-formed exponent part. *)
Definition exponent_part (s : list ascii) : option Z :=
  match s with
  | [] => Some 0
  | c :: s' =>
      if (Ascii.eqb c "e" || Ascii.eqb c "E")%bool then
        let '(neg, s'') :=
          match s' with
          | "+"%char :: r => (false, r)
          | "-"%char :: r => (true, r)
          | _ => (false, s')
          end in
        match digits 10 s'' with
        | ([], _) => None
        | (ds, []) =>
            let e := Z.of_N (digits_value 10 ds) in
            Some (if neg then - e else e)
        | (_, _ :: _) => None
        end
      else None
  end.

(** StrUnsignedDecimalLiteral, with the sign read before it. *)
Definition unsigned_decimal (neg : bool) (s : list ascii) : number :=
  if String.eqb (string_of_list_ascii s) "Infinity" then S754_infinity neg
  else
    let '(ip, r1) := digits 10 s in
    let '(fp, r2, ok) :=
      match r1 with
      | "."%char :: r =>
          let '(fp, r2) := digits 10 r in
          (fp, r2, negb (Nat.eqb (length ip + length fp) 0))
      | _ => ([], r1, negb (Nat.eqb (length ip) 0))
      end in
    if ok then
      match exponent_part r2 with
      | Some e =>
          of_decimal neg (digits_value 10 (ip ++ fp))
            (e - Z.of_nat (length fp))
      | None => NaN
      end
    else NaN.

(** NonDecimalIntegerLiteral: the digits after [0x], [0o] or [0b]. *)
Definition non_decimal (base : N) (s : list ascii) : number :=
  match digits base s with
  | ([], _) => NaN
  | (ds, []) => of_Z (Z.of_N (digits_value base ds))
  | (_, _ :: _) => NaN
  end.

Definition StringToNumber (str : string) : number :=
  match trim (list_ascii_of_string str) with
  | [] => S754_zero false
  | "0"%char :: "x"%char :: s | "0"%char :: "X"%char :: s => non_decimal 16 s
  | "0"%char :: "o"%char :: s | "0"%char :: "O"%char :: s => non_decimal 8 s
  | "0"%char :: "b"%char :: s | "0"%char :: "B"%char :: s => non_decimal 2 s
  | "+"%char :: s => unsigned_decimal false s
  | "-"%char :: s => unsigned_decimal true s
  | s => unsigned_decimal false s
  end.

(** *** Number::toString on integers *)

(** All decimal digits of an integer, with a minus sign when negative. *)
Definition decimal (z : Z) : string := NilZero.string_of_int (Z.to_int z).

(** The integer held by a finite number whose exponent is not negative. *)
Definition integer_value (x : number) : option Z :=
  match x with
  | S754_zero _ => Some 0
  | S754_finite s m (Zneg _) => None
  | S754_finite s m e => Some ((if s then Z.neg m else Z.pos m) * 2 ^ e)
  | _ => None
  end.

(** The texts [s * 10^(n-k)], with [s] of [k] digits, that convert back to
    [x]: the two multiples of [10^(n-k)] around the value [X] of [x], each
    kept when it has [k] digits and converts to [x], with its distance to
    [X]. *)
Definition candidates (x : number) (X : Z) (k n : nat)
  : list (Z * nat * Z) :=
  if (n <? k)%nat then []
  else
    let p := 10 ^ Z.of_nat (n - k) in
    let keep s :=
      ((10 ^ Z.of_nat (k - 1) <=? s)%Z && (s <? 10 ^ Z.of_nat k)%Z
       && SFeqb (of_Z (s * p)) x)%bool in
    map (fun s => (s, n, Z.abs (s * p - X)))
      (List.filter keep [X / p; X / p + 1]).

(** The closer of two candidates, the even one when equally close. *)
Definition closer (a b : Z * nat * Z) : Z * nat * Z :=
  let '(sa, _, da) := a in
  let '(sb, _, db) := b in
  if (da <? db)%Z then a
  else if (db <? da)%Z then b
  else if Z.even sa then a else b.

Definition closest (cs : list (Z * nat * Z)) : option (Z * nat * Z) :=
  match cs with
  | [] => None
  | c :: cs' => Some (fold_left closer cs' c)
  end.

(** The shortest digits: the first [k] of [ks] for which a candidate
    exists, with [n] the number [d] of digits of [X] or one more. *)
Fixpoint shortest (x : number) (X : Z) (d : nat) (ks : list nat)
  : option (Z * nat * nat) :=
  match ks with
  | [] => None
  | k :: ks' =>
      match closest (candidates x X k d ++ candidates x X k (S d)) with
      | Some (s, n, _) => Some (s, k, n)
      | None => shortest x X d ks'
      end
  end.

Fixpoint zeros (n : nat) : string :=
  match n with
  | O => ""
  | S n' => String "0" (zeros n')
  end.

(** The text of a number [x] that holds the positive integer [X]: its
    shortest digits followed by zeros up to 21 digits, and in exponent
    form beyond. Seventeen digits always suffice. *)
Definition integer_text (x : number) (X : Z) : string :=
  let d := String.length (decimal X) in
  match shortest x X d (seq 1 17) with
  | Some (s, k, n) =>
      if (n <=? 21)%nat then decimal s ++ zeros (n - k)
      else
        match decimal s with
        | String c "" => String c ("e+" ++ decimal (Z.of_nat n - 1))
        | String c rest =>
            String c ("." ++ rest ++ "e+" ++ decimal (Z.of_nat n - 1))
        | "" => ""
        end
  | None => decimal X
  end.

(** [String(hero.id)] for the integer [z] the catalog holds as id. Below
    2^53 in absolute value the number read from the catalog is [z] itself
    and its text is all the digits of [z]. From 2^53 on the number is the
    binary64 value nearest to [z], and its text is the shortest one that
    converts back to it ([1152921504606847000] for 2^60, [1e+21] for
    10^21, [Infinity] beyond the largest number). *)
Definition String_of_Z (z : Z) : string :=
  if (Z.abs z <? 2 ^ 53)%Z then decimal z
  else
    match of_Z z with
    | S754_infinity s => if s then "-Infinity" else "Infinity"
    | x =>
        match integer_value x with
        | Some X =>
            (if (X <? 0)%Z then "-" else "")
            ++ integer_text (SFabs x) (Z.abs X)
        | None => decimal z
        end
    end.

(** [a > b] on two property reads; a read of an absent property is
    [undefined], which converts to NaN and makes the comparison false. *)
Definition gt (a b : option Z) : bool :=
  match a, b with
  | Some x, Some y => (y <? x)%Z
  | _, _ => false
  end.

End JS.

(** ** Requests and responses *)

(** A value of [req.query]: the query-string parser yields a string, an
    array (a repeated key) or a nested object (a bracketed key). *)
Inductive QueryValue :=
| QString (s : string)
| QArray (items : list QueryValue)
| QObject (fields : list (string * QueryValue)).

(** [String(id)] for a route parameter. *)
Definition String_of_param (v : option string) : string :=
  match v with
  | None => "undefined"
  | Some s => s
  end.

Record Request := {
  query : gmap string QueryValue;
  params : gmap string string
}.

Module Superhero.
Record t := {
  id : Z;
  name : string;
  image : string;
  powerstats : gmap string Z
}.
End Superhero.

(** What the variables [winner] and [overall_winner] hold: the number 1 or
    2, or the string [tie]. *)
Inductive WinnerValue :=
| Num (n : Z)
| Str (s : string).

Module CategoryResult.
Record t := {
  name : string;
  winner : WinnerValue;
  id1_value : option Z;
  id2_value : option Z
}.
End CategoryResult.

Module ComparisonResult.
Record t := {
  id1 : JS.number;
  id2 : JS.number;
  categories : list CategoryResult.t;
  overall_winner : WinnerValue
}.
End ComparisonResult.

(** The argument of [res.json] or [res.send]. *)
Inductive Body :=
| JsonSuperheroes (superheroes : list Superhero.t)
| JsonSuperhero (superhero : Superhero.t)
| JsonPowerstats (powerstats : gmap string Z)
| JsonComparison (result : ComparisonResult.t)
| JsonError (error : string)
| Text (text : string).

Record Response := {
  status : Z;
  body : Body
}.

(** ** Effects: the file read, the console, rejected promises *)

Inductive Error :=
| ErrnoException (code : string)
| SyntaxError (message : string)
| TypeError (message : string).

(** [String(v)], the conversion of a query value to a text. An array joins
    the texts of its elements with commas. An object has no callable
    [valueOf] or [toString] of its own (the parser stores texts, arrays and
    objects only), so it prints through the inherited [toString] as
    [[object Object]], unless it has an own property named [toString]: this
    hides the inherited one, nothing is left to call, and the conversion
    throws a TypeError. *)
Fixpoint ToString (v : QueryValue) : Error + string :=
  match v with
  | QString s => inr s
  | QArray items =>
      (fix join (l : list QueryValue) : Error + string :=
         match l with
         | [] => inr ""
         | [x] => ToString x
         | x :: l' =>
             match ToString x with
             | inl err => inl err
             | inr s =>
                 match join l' with
                 | inl err => inl err
                 | inr r => inr (s ++ "," ++ r)
                 end
             end
         end) items
  | QObject fields =>
      if existsb (fun f => String.eqb (fst f) "toString") fields
      then inl (TypeError "Cannot convert object to primitive value")
      else inr "[object Object]"
  end.

(** [Number(req.query.x)]; an absent key reads as [undefined], which
    converts to NaN. A value whose conversion to a text throws makes
    [Number] throw. *)
Definition Number (v : option QueryValue) : Error + JS.number :=
  match v with
  | None => inr JS.NaN
  | Some q =>
      match ToString q with
      | inl err => inl err
      | inr s => inr (JS.StringToNumber s)
      end
  end.

Inductive Event :=
| ReadFile (path : string)
| ConsoleError (label : string) (err : Error).

(** The world outside the handlers: where the data file is, what reading a
    path gives, and what [JSON.parse] makes of a text. Data that parses to
    something other than an array of superhero records is outside this
    model. *)
Record Env := {
  dataPath : string;
  fs_readFile : string -> Error + string;
  JSON_parse : string -> Error + list Superhero.t
}.

(** An awaited computation: the events it performed, in order, and either
    the error it rejected with or its value. *)
Definition Async (A : Type) : Type := list Event * (Error + A).

Definition resolve {A : Type} (a : A) : Async A := ([], inr a).

Definition reject {A : Type} (err : Error) : Async A := ([], inl err).

(** A call that returns or throws, without any event. *)
Definition call {A : Type} (r : Error + A) : Async A := ([], r).

Definition bind {A B : Type} (m : Async A) (k : A -> Async B) : Async B :=
  match m with
  | (t, inl err) => (t, inl err)
  | (t, inr a) => let '(t', r) := k a in ((t ++ t')%list, r)
  end.

Definition try_catch {A : Type} (block : Async A) (handler : Error -> Async A)
  : Async A :=
  match block with
  | (t, inl err) => let '(t', r) := handler err in ((t ++ t')%list, r)
  | (t, inr a) => (t, inr a)
  end.

Definition console_error (label : string) (err : Error) : Async unit :=
  ([ConsoleError label err], inr tt).

Declare Scope async_scope.
Delimit Scope async_scope with async.
Notation "x <- m ;; k" := (bind m (fun x => k))
  (at level 100, m at next level, right associativity) : async_scope.
Notation "m ;;; k" := (bind m (fun _ => k))
  (at level 100, right associativity) : async_scope.

(** [Array.prototype.map] with a callback that updates captured variables:
    the elements are visited left to right and the state is threaded. *)
Fixpoint map_st {A B S : Type} (f : S -> A -> B * S) (s : S) (l : list A)
  : list B * S :=
  match l with
  | [] => ([], s)
  | a :: l' =>
      let '(b, s1) := f s a in
      let '(bs, s2) := map_st f s1 l' in
      (b :: bs, s2)
  end.

(** ** The server *)

Module Server.
Section Handlers.

Variable env : Env.

Definition json (code : Z) (b : Body) : Response :=
  {| status := code; body := b |}.

Definition send (code : Z) (text : string) : Response :=
  {| status := code; body := Text text |}.

(** [fs.readFile(path, 'utf8', callback)]: the read is recorded, and the
    callback receives either [err] or [data]. *)
Definition readFile (path : string) : Async (Error + string) :=
  ([ReadFile path], inr (fs_readFile env path)).

Definition loadSuperheroes : Async (list Superhero.t) :=
  (outcome <- readFile (dataPath env) ;;
   match outcome with
   | inl err => reject err
   | inr data =>
       match JSON_parse env data with
       | inr superheroes => resolve superheroes
       | inl parseErr => reject parseErr
       end
   end)%async.

(** GET /api/superheroes *)
Definition get_superheroes (req : Request) : Async Response :=
  try_catch
    (superheroes <- loadSuperheroes ;;
     resolve (json 200 (JsonSuperheroes superheroes)))%async
    (fun err =>
       console_error "Error loading superheroes data:" err ;;;
       resolve (send 500 "Internal Server Error"))%async.

Definition categoriesOrder : list string :=
  ["intelligence"; "strength"; "speed"; "durability"; "power"; "combat"].

(** The callback of [categoriesOrder.map]; the state is the pair of the
    captured counters [id1Wins] and [id2Wins]. *)
Definition compare_category (hero1 hero2 : Superhero.t)
    (wins : nat * nat) (cat : string) : CategoryResult.t * (nat * nat) :=
  let '(id1Wins, id2Wins) := wins in
  let id1_value := Superhero.powerstats hero1 !! cat in
  let id2_value := Superhero.powerstats hero2 !! cat in
  if JS.gt id1_value id2_value then
    ({| CategoryResult.name := cat; CategoryResult.winner := Num 1;
        CategoryResult.id1_value := id1_value;
        CategoryResult.id2_value := id2_value |},
     (S id1Wins, id2Wins))
  else if JS.gt id2_value id1_value then
    ({| CategoryResult.name := cat; CategoryResult.winner := Num 2;
        CategoryResult.id1_value := id1_value;
        CategoryResult.id2_value := id2_value |},
     (id1Wins, S id2Wins))
  else
    ({| CategoryResult.name := cat; CategoryResult.winner := Str "tie";
        CategoryResult.id1_value := id1_value;
        CategoryResult.id2_value := id2_value |},
     (id1Wins, id2Wins)).

(** What the compare handler builds once both heroes are found: the six
    category records, the two tallies and the overall winner. *)
Definition compare_heroes (id1 id2 : JS.number)
    (hero1 hero2 : Superhero.t) : ComparisonResult.t :=
  let '(categories, (id1Wins, id2Wins)) :=
    map_st (compare_category hero1 hero2) (0, 0)%nat categoriesOrder in
  let overall_winner :=
    if (id2Wins <? id1Wins)%nat then Num 1
    else if (id1Wins <? id2Wins)%nat then Num 2
    else Str "tie" in
  {| ComparisonResult.id1 := id1;
     ComparisonResult.id2 := id2;
     ComparisonResult.categories := categories;
     ComparisonResult.overall_winner := overall_winner |}.

(** GET /api/superheroes/compare *)
Definition get_compare (req : Request) : Async Response :=
  (id1 <- call (Number (query req !! "id1")) ;;
   id2 <- call (Number (query req !! "id2")) ;;
   if JS.isNaN id1 || JS.isNaN id2 then
     resolve (json 400 (JsonError
       "Both id1 and id2 query parameters must be valid numbers."))
   else
     try_catch
       (superheroes <- loadSuperheroes ;;
        let hero1 :=
          find (fun h => JS.strict_eq (JS.of_Z (Superhero.id h)) id1)
            superheroes in
        let hero2 :=
          find (fun h => JS.strict_eq (JS.of_Z (Superhero.id h)) id2)
            superheroes in
        match hero1, hero2 with
        | Some hero1, Some hero2 =>
            resolve (json 200 (JsonComparison
              (compare_heroes id1 id2 hero1 hero2)))
        | _, _ => resolve (json 404 (JsonError "Superhero not found"))
        end)
       (fun err =>
          console_error "Error comparing superheroes:" err ;;;
          resolve (send 500 "Internal Server Error")))%async.

(** The predicate of [find] in the two single-hero routes:
    [String(hero.id) === String(id)]. *)
Definition same_id_text (id : option string) (hero : Superhero.t) : bool :=
  String.eqb (JS.String_of_Z (Superhero.id hero)) (String_of_param id).

(** GET /api/superheroes/:id *)
Definition get_superhero (req : Request) : Async Response :=
  let id := params req !! "id" in
  try_catch
    (superheroes <- loadSuperheroes ;;
     match find (same_id_text id) superheroes with
     | Some superhero => resolve (json 200 (JsonSuperhero superhero))
     | None => resolve (send 404 "Superhero not found")
     end)%async
    (fun err =>
       console_error "Error loading superheroes data:" err ;;;
       resolve (send 500 "Internal Server Error"))%async.

(** GET /api/superheroes/:id/powerstats *)
Definition get_powerstats (req : Request) : Async Response :=
  let id := params req !! "id" in
  try_catch
    (superheroes <- loadSuperheroes ;;
     match find (same_id_text id) superheroes with
     | Some superhero =>
         resolve (json 200 (JsonPowerstats (Superhero.powerstats superhero)))
     | None => resolve (send 404 "Superhero not found")
     end)%async
    (fun err =>
       console_error "Error loading superheroes data:" err ;;;
       resolve (send 500 "Internal Server Error"))%async.

End Handlers.
End Server.

(** ** Vocabulary of the statements *)

(** The catalog the handlers see when the data file loads. *)
Definition loaded (env : Env) (superheroes : list Superhero.t) : Prop :=
  snd (Server.loadSuperheroes env) = inr superheroes.

(** Resolution in the compare route: [superheroes.find(h => h.id === n)]. *)
Definition find_by_number (superheroes : list Superhero.t) (n : JS.number)
  : option Superhero.t :=
  find (fun h => JS.strict_eq (JS.of_Z (Superhero.id h)) n) superheroes.

(** Resolution in the single-hero routes. *)
Definition find_by_text (superheroes : list Superhero.t) (id : option string)
  : option Superhero.t :=
  find (Server.same_id_text id) superheroes.

(** The three outcomes the specification names, and how the endpoint
    writes them. *)
Inductive Winner := First | Second | Tie.

Definition render (w : Winner) : WinnerValue :=
  match w with
  | First => Num 1
  | Second => Num 2
  | Tie => Str "tie"
  end.

(** The specification's rule for one category. *)
Definition winner_of_values (valueA valueB : Z) : Winner :=
  if (valueB <? valueA)%Z then First
  else if (valueA <? valueB)%Z then Second
  else Tie.

#[global] Instance WinnerValue_eq_dec : EqDecision WinnerValue.
Proof. solve_decision. Defined.

(** How many categories carry the winner [w]. *)
Definition wins (w : WinnerValue) (categories : list CategoryResult.t) : nat :=
  length (filter (fun r => CategoryResult.winner r = w) categories).

(** Exchanging the two sides of a result. *)
Definition flip (w : WinnerValue) : WinnerValue :=
  if decide (w = Num 1) then Num 2
  else if decide (w = Num 2) then Num 1
  else w.

Definition mirror_category (r : CategoryResult.t) : CategoryResult.t :=
  {| CategoryResult.name := CategoryResult.name r;
     CategoryResult.winner := flip (CategoryResult.winner r);
     CategoryResult.id1_value := CategoryResult.id2_value r;
     CategoryResult.id2_value := CategoryResult.id1_value r |}.

Definition mirror (c : ComparisonResult.t) : ComparisonResult.t :=
  {| ComparisonResult.id1 := ComparisonResult.id2 c;
     ComparisonResult.id2 := ComparisonResult.id1 c;
     ComparisonResult.categories :=
       map mirror_category (ComparisonResult.categories c);
     ComparisonResult.overall_winner :=
       flip (ComparisonResult.overall_winner c) |}.

(** Integers a number holds exactly and prints as plain decimal digits. *)
Definition safe_integer (z : Z) : Prop := - 2 ^ 53 < z < 2 ^ 53.

(** Texts made of an optional minus sign and decimal digits. *)
Definition is_decimal_digit (c : ascii) : bool :=
  let n := N_of_ascii c in ((48 <=? n) && (n <=? 57))%N.

Fixpoint all_digits (s : string) : bool :=
  match s with
  | EmptyString => true
  | String c s' => is_decimal_digit c && all_digits s'
  end.

Definition decimal_text (s : string) : bool :=
  match s with
  | EmptyString => false
  | String c s' => (Ascii.eqb c "-" || is_decimal_digit c) && all_digits s'
  end.

(** ** Sample data *)

Definition stats (i s sp d p c : Z) : gmap string Z :=
  list_to_map
    [("intelligence", i); ("strength", s); ("speed", sp);
     ("durability", d); ("power", p); ("combat", c)].

Definition hero (id : Z) (name : string) (st : gmap string Z) : Superhero.t :=
  {| Superhero.id := id; Superhero.name := name;
     Superhero.image := "https://example.org/" ++ name ++ ".jpg";
     Superhero.powerstats := st |}.

Definition sample_catalog : list Superhero.t :=
  [ hero 1 "A-Bomb" (stats 38 100 17 80 24 64);
    hero 2 "Abe Sapien" (stats 100 18 23 28 32 32);
    hero 3 "Abin Sur" (stats 90 55 43 80 62 82);
    hero 10 "Agent Bob" (stats 10 8 13 5 5 20) ].

Definition env_with (superheroes : list Superhero.t) : Env :=
  {| dataPath := "backend/data/superheroes.json";
     fs_readFile := fun _ => inr "[...]";
     JSON_parse := fun _ => inr superheroes |}.

Definition sample_env : Env := env_with sample_catalog.


Definition compare_request (id1 id2 : string) : Request :=
  {| query := list_to_map [("id1", QString id1); ("id2", QString id2)];
     params := ∅ |}.

Definition hero_request (id : string) : Request :=
  {| query := ∅; params := {[ "id" := id ]} |}.


(** The record the callback returns for one category. *)
Definition category_entry (hero1 hero2 : Superhero.t) (cat : string)
  : CategoryResult.t :=
  fst (Server.compare_category hero1 hero2 (0, 0)%nat cat).

(** ** Vocabulary of the further properties *)

(** Texts made of white space only, the empty text included. *)
Definition blank (s : string) : bool :=
  forallb JS.is_whitespace (list_ascii_of_string s).

(** How often a run read the data file, and how often it wrote to the
    console. *)
Definition reads (tr : list Event) : nat :=
  length (List.filter
            (fun e => match e with ReadFile _ => true | _ => false end) tr).

Definition console_errors (tr : list Event) : nat :=
  length (List.filter
            (fun e => match e with ConsoleError _ _ => true | _ => false end)
            tr).

(** The values of the decimal digits of [d], most significant first. *)
Fixpoint uint_values (d : Decimal.uint) : list N :=
  match d with
  | Decimal.Nil => []
  | Decimal.D0 d => 0%N :: uint_values d
  | Decimal.D1 d => 1%N :: uint_values d
  | Decimal.D2 d => 2%N :: uint_values d
  | Decimal.D3 d => 3%N :: uint_values d
  | Decimal.D4 d => 4%N :: uint_values d
  | Decimal.D5 d => 5%N :: uint_values d
  | Decimal.D6 d => 6%N :: uint_values d
  | Decimal.D7 d => 7%N :: uint_values d
  | Decimal.D8 d => 8%N :: uint_values d
  | Decimal.D9 d => 9%N :: uint_values d
  end.

(** The request for a comparison with arbitrary query values. *)
Definition compare_query (id1 id2 : QueryValue) : Request :=
  {| query := list_to_map [("id1", id1); ("id2", id2)]; params := ∅ |}.

(** A catalog whose second hero has lost its [speed] entry. *)
Definition partial_catalog : list Superhero.t :=
  [ hero 1 "A-Bomb" (stats 38 100 17 80 24 64);
    hero 4 "Abomination" (delete "speed" (stats 63 80 53 90 55 95)) ].

(** The port the server listens on:
    [process.env.TEST_PORT || process.env.PORT || 3000]. *)
Module Process.

Inductive PortValue :=
| PortText (s : string)
| PortNumber (n : Z).

(** [a || b] on two environment variables: an unset or empty variable is
    falsy and yields [b] as it is. *)
Definition or_variable (a b : option string) : option string :=
  match a with
  | Some (String _ _) => a
  | _ => b
  end.

(** [a || 3000]. *)
Definition or_default (a : option string) (n : Z) : PortValue :=
  match a with
  | Some (String c s) => PortText (String c s)
  | _ => PortNumber n
  end.

Definition PORT (process_env : gmap string string) : PortValue :=
  or_default
    (or_variable (process_env !! "TEST_PORT") (process_env !! "PORT")) 3000.

End Process.

(** ** Basic facts about the run time *)

Section Runtime.

Lemma isNaN_true (n : JS.number) : JS.isNaN n = true ↔ n = JS.NaN.
Proof. destruct n; simpl; split; intros H; try done. Qed.

Lemma strict_eq_NaN_r (a n : JS.number) :
  JS.isNaN n = true → JS.strict_eq a n = false.
Proof. intros ->%isNaN_true. by destruct a. Qed.

Lemma find_by_number_NaN superheroes n :
  JS.isNaN n = true → find_by_number superheroes n = None.
Proof.
  intros Hn. unfold find_by_number.
  induction superheroes as [|h l IH]; [done|].
  simpl. by rewrite (strict_eq_NaN_r _ _ Hn).
Qed.

Lemma find_by_number_Some_valid superheroes n h :
  find_by_number superheroes n = Some h → JS.isNaN n = false.
Proof.
  intros Hf. destruct (JS.isNaN n) eqn:Hn; [|done].
  by rewrite (find_by_number_NaN _ _ Hn) in Hf.
Qed.

Lemma gt_irrefl (v : option Z) : JS.gt v v = false.
Proof. destruct v as [x|]; [apply Z.ltb_irrefl | done]. Qed.

Lemma gt_asym (a b : option Z) : JS.gt a b = true → JS.gt b a = false.
Proof. destruct a, b; simpl; try done. intros H. apply Z.ltb_ge. lia. Qed.

End Runtime.

(** ** The loader *)

Section Loader.

Variable env : Env.

Lemma load_resolved superheroes :
  loaded env superheroes →
  Server.loadSuperheroes env = ([ReadFile (dataPath env)], inr superheroes).
Proof.
  unfold loaded, Server.loadSuperheroes, Server.readFile. cbn [bind].
  destruct (fs_readFile env (dataPath env)) as [e|data]; [by intros [=]|].
  destruct (JSON_parse env data); by intros [=->].
Qed.

Lemma load_rejected err :
  snd (Server.loadSuperheroes env) = inl err →
  Server.loadSuperheroes env = ([ReadFile (dataPath env)], inl err).
Proof.
  unfold Server.loadSuperheroes, Server.readFile. cbn [bind].
  destruct (fs_readFile env (dataPath env)) as [e|data]; [by intros [=->]|].
  destruct (JSON_parse env data); by intros [=->].
Qed.

(** The loader either rejects or resolves; there is no third outcome. *)
Lemma load_cases :
  (∃ err, snd (Server.loadSuperheroes env) = inl err) ∨
  (∃ superheroes, loaded env superheroes).
Proof.
  unfold loaded. destruct (snd (Server.loadSuperheroes env)) as [e|l]; eauto.
Qed.

End Loader.

(** ** The compare handler, case by case *)

Section CompareCases.

Variables (env : Env) (req : Request).

Lemma bind_call_inr {A B : Type} (a : A) (k : A → Async B) :
  bind (call (inr a)) k = k a.
Proof. unfold bind, call. by destruct (k a). Qed.

Lemma bind_call_inl {A B : Type} (err : Error) (k : A → Async B) :
  bind (call (inl err)) k = ([], inl err).
Proof. done. Qed.

(** A conversion that throws is outside the [try]: the handler rejects
    with the error, before any event and without an answer. *)
Lemma get_compare_throws_id1 err :
  Number (query req !! "id1") = inl err →
  Server.get_compare env req = ([], inl err).
Proof. intros H1. unfold Server.get_compare. by rewrite H1. Qed.

Lemma get_compare_throws_id2 id1 err :
  Number (query req !! "id1") = inr id1 →
  Number (query req !! "id2") = inl err →
  Server.get_compare env req = ([], inl err).
Proof.
  intros H1 H2. unfold Server.get_compare.
  by rewrite H1, H2, bind_call_inr.
Qed.

Section Converted.

Variables id1 id2 : JS.number.
Hypothesis Hid1 : Number (query req !! "id1") = inr id1.
Hypothesis Hid2 : Number (query req !! "id2") = inr id2.

Lemma get_compare_invalid :
  JS.isNaN id1 || JS.isNaN id2 = true →
  Server.get_compare env req =
    ([], inr (Server.json 400 (JsonError
      "Both id1 and id2 query parameters must be valid numbers."))).
Proof.
  intros Hv. unfold Server.get_compare.
  by rewrite Hid1, Hid2, !bind_call_inr, Hv.
Qed.

Lemma get_compare_rejected err :
  JS.isNaN id1 || JS.isNaN id2 = false →
  snd (Server.loadSuperheroes env) = inl err →
  Server.get_compare env req =
    ([ReadFile (dataPath env);
      ConsoleError "Error comparing superheroes:" err],
     inr (Server.send 500 "Internal Server Error")).
Proof.
  intros Hv Hl. unfold Server.get_compare.
  rewrite Hid1, Hid2, !bind_call_inr, Hv.
  by rewrite (load_rejected _ _ Hl).
Qed.

Lemma get_compare_loaded superheroes :
  JS.isNaN id1 || JS.isNaN id2 = false →
  loaded env superheroes →
  Server.get_compare env req =
    ([ReadFile (dataPath env)],
     inr match find_by_number superheroes id1,
               find_by_number superheroes id2 with
         | Some hero1, Some hero2 =>
             Server.json 200 (JsonComparison
               (Server.compare_heroes id1 id2 hero1 hero2))
         | _, _ => Server.json 404 (JsonError "Superhero not found")
         end).
Proof.
  intros Hv Hl. unfold Server.get_compare.
  rewrite Hid1, Hid2, !bind_call_inr, Hv.
  rewrite (load_resolved _ _ Hl). unfold find_by_number.
  cbn [try_catch bind resolve].
  destruct (find _ superheroes); [destruct (find _ superheroes)|]; done.
Qed.

Lemma get_compare_found superheroes hero1 hero2 :
  loaded env superheroes →
  find_by_number superheroes id1 = Some hero1 →
  find_by_number superheroes id2 = Some hero2 →
  Server.get_compare env req =
    ([ReadFile (dataPath env)],
     inr (Server.json 200 (JsonComparison
            (Server.compare_heroes id1 id2 hero1 hero2)))).
Proof.
  intros Hl H1 H2.
  rewrite (get_compare_loaded superheroes); [by rewrite H1, H2| |done].
  by rewrite (find_by_number_Some_valid _ _ _ H1),
             (find_by_number_Some_valid _ _ _ H2).
Qed.

End Converted.

(** Each conversion either throws or yields a number. *)
Lemma Number_cases (v : option QueryValue) :
  (∃ err, Number v = inl err) ∨ (∃ n, Number v = inr n).
Proof. destruct (Number v) as [err|n]; eauto. Qed.

(** A 200 answer can only come from the branch where both identifiers
    converted and both heroes were found. *)
Lemma get_compare_success_inv tr resp :
  Server.get_compare env req = (tr, inr resp) →
  status resp = 200 →
  ∃ id1 id2 superheroes hero1 hero2,
    Number (query req !! "id1") = inr id1 ∧
    Number (query req !! "id2") = inr id2 ∧
    loaded env superheroes ∧
    find_by_number superheroes id1 = Some hero1 ∧
    find_by_number superheroes id2 = Some hero2 ∧
    tr = [ReadFile (dataPath env)] ∧
    resp = Server.json 200 (JsonComparison
             (Server.compare_heroes id1 id2 hero1 hero2)).
Proof.
  intros Hrun Hst.
  destruct (Number_cases (query req !! "id1")) as [[e1 H1]|[id1 H1]].
  { by rewrite (get_compare_throws_id1 _ H1) in Hrun. }
  destruct (Number_cases (query req !! "id2")) as [[e2 H2]|[id2 H2]].
  { by rewrite (get_compare_throws_id2 _ _ H1 H2) in Hrun. }
  exists id1, id2.
  destruct (JS.isNaN id1 || JS.isNaN id2) eqn:Hv.
  { rewrite (get_compare_invalid _ _ H1 H2 Hv) in Hrun. by simplify_eq. }
  destruct (load_cases env) as [[err Hl]|[superheroes Hl]].
  { rewrite (get_compare_rejected _ _ H1 H2 _ Hv Hl) in Hrun.
    by simplify_eq. }
  rewrite (get_compare_loaded _ _ H1 H2 _ Hv Hl) in Hrun.
  exists superheroes.
  destruct (find_by_number superheroes id1) as [hero1|] eqn:F1;
    destruct (find_by_number superheroes id2) as [hero2|] eqn:F2;
    simplify_eq; try done.
  by exists hero1, hero2.
Qed.

End CompareCases.

(** ** The comparison proper *)

Section Comparison.

Variables hero1 hero2 : Superhero.t.

Lemma category_entry_eq cat :
  category_entry hero1 hero2 cat =
    {| CategoryResult.name := cat;
       CategoryResult.winner :=
         if JS.gt (Superhero.powerstats hero1 !! cat)
                  (Superhero.powerstats hero2 !! cat) then Num 1
         else if JS.gt (Superhero.powerstats hero2 !! cat)
                       (Superhero.powerstats hero1 !! cat) then Num 2
         else Str "tie";
       CategoryResult.id1_value := Superhero.powerstats hero1 !! cat;
       CategoryResult.id2_value := Superhero.powerstats hero2 !! cat |}.
Proof.
  unfold category_entry, Server.compare_category.
  by repeat case_match.
Qed.

Lemma wins_cons w r rs :
  wins w (r :: rs) =
    ((if decide (CategoryResult.winner r = w) then 1 else 0) + wins w rs)%nat.
Proof. unfold wins. rewrite filter_cons. by case_decide. Qed.

(** The counters after the loop are the counters before it plus the
    number of records won by each side. *)
Lemma map_st_compare_category cats w1 w2 :
  map_st (Server.compare_category hero1 hero2) (w1, w2) cats =
    (map (category_entry hero1 hero2) cats,
     ((w1 + wins (Num 1) (map (category_entry hero1 hero2) cats))%nat,
      (w2 + wins (Num 2) (map (category_entry hero1 hero2) cats))%nat)).
Proof.
  revert w1 w2. induction cats as [|cat cats IH]; intros w1 w2.
  { simpl. unfold wins. simpl. by rewrite !Nat.add_0_r. }
  cbn [map_st map]. rewrite !wins_cons, category_entry_eq.
  unfold Server.compare_category.
  destruct (JS.gt (Superhero.powerstats hero1 !! cat)
                  (Superhero.powerstats hero2 !! cat));
    [|destruct (JS.gt (Superhero.powerstats hero2 !! cat)
                      (Superhero.powerstats hero1 !! cat))];
    rewrite IH; cbn [CategoryResult.winner];
    repeat case_decide; try done;
    f_equal; f_equal; lia.
Qed.

Lemma compare_heroes_eq id1 id2 :
  let categories := map (category_entry hero1 hero2) Server.categoriesOrder in
  Server.compare_heroes id1 id2 hero1 hero2 =
    {| ComparisonResult.id1 := id1;
       ComparisonResult.id2 := id2;
       ComparisonResult.categories := categories;
       ComparisonResult.overall_winner :=
         if (wins (Num 2) categories <? wins (Num 1) categories)%nat
         then Num 1
         else if (wins (Num 1) categories <? wins (Num 2) categories)%nat
         then Num 2
         else Str "tie" |}.
Proof.
  intros categories. unfold Server.compare_heroes.
  by rewrite map_st_compare_category.
Qed.

End Comparison.

(** ** Properties of the compare endpoint *)

(** C1. When both identifiers resolve, the record of each category carries
    the two heroes' values for that category, and its winner is 1 exactly
    when the first value is strictly greater, 2 exactly when the second is
    strictly greater, and [tie] exactly when the two integers are equal.
    The winner is a function of the two values alone
    ([winner_of_values]): neither the category's name nor its position
    enters. *)
Theorem category_winner_by_values
    (env : Env) (req : Request) (id1 id2 : JS.number)
    (superheroes : list Superhero.t)
    (hero1 hero2 : Superhero.t) (i : nat) (cat : string) (a b : Z) :
  loaded env superheroes →
  Number (query req !! "id1") = inr id1 →
  Number (query req !! "id2") = inr id2 →
  find_by_number superheroes id1 = Some hero1 →
  find_by_number superheroes id2 = Some hero2 →
  Server.categoriesOrder !! i = Some cat →
  Superhero.powerstats hero1 !! cat = Some a →
  Superhero.powerstats hero2 !! cat = Some b →
  ∃ tr result r,
    Server.get_compare env req =
      (tr, inr (Server.json 200 (JsonComparison result))) ∧
    ComparisonResult.categories result !! i = Some r ∧
    CategoryResult.name r = cat ∧
    CategoryResult.id1_value r = Some a ∧
    CategoryResult.id2_value r = Some b ∧
    (CategoryResult.winner r = Num 1 ↔ b < a) ∧
    (CategoryResult.winner r = Num 2 ↔ a < b) ∧
    (CategoryResult.winner r = Str "tie" ↔ a = b) ∧
    CategoryResult.winner r = render (winner_of_values a b).
Proof.
  intros Hl N1 N2 H1 H2 Hcat Ha Hb.
  eexists _, _, (category_entry hero1 hero2 cat).
  split; [by apply (get_compare_found env req id1 id2 N1 N2 superheroes)|].
  rewrite compare_heroes_eq. cbn [ComparisonResult.categories].
  split; [by rewrite list_lookup_fmap, Hcat|].
  rewrite category_entry_eq, Ha, Hb.
  cbn [CategoryResult.name CategoryResult.winner CategoryResult.id1_value
       CategoryResult.id2_value JS.gt].
  unfold winner_of_values.
  destruct (Z.ltb_spec b a), (Z.ltb_spec a b); cbn [render];
    repeat split; intros; simplify_eq; try done; lia.
Qed.

Lemma category_winner_by_values_witness :
  ∃ tr result r,
    Server.get_compare sample_env (compare_request "1" "2") =
      (tr, inr (Server.json 200 (JsonComparison result))) ∧
    ComparisonResult.categories result !! 1%nat = Some r ∧
    CategoryResult.name r = "strength" ∧
    CategoryResult.id1_value r = Some 100 ∧
    CategoryResult.id2_value r = Some 18 ∧
    (CategoryResult.winner r = Num 1 ↔ 18 < 100) ∧
    (CategoryResult.winner r = Num 2 ↔ 100 < 18) ∧
    (CategoryResult.winner r = Str "tie" ↔ 100 = 18) ∧
    CategoryResult.winner r = render (winner_of_values 100 18).
Proof.
  apply (category_winner_by_values sample_env (compare_request "1" "2")
           (JS.of_Z 1) (JS.of_Z 2) sample_catalog
           (hero 1 "A-Bomb" (stats 38 100 17 80 24 64))
           (hero 2 "Abe Sapien" (stats 100 18 23 28 32 32))
           1 "strength" 100 18);
    vm_compute; reflexivity.
Defined.

(** C2. In every successful comparison the overall winner is 1 exactly
    when more categories were won by the first hero than by the second, 2
    in the opposite case, and [tie] exactly when the two tallies are
    equal; tied categories count for neither side, and which categories
    went to whom plays no part. *)
Theorem overall_winner_by_tally
    (env : Env) (req : Request) (tr : list Event)
    (result : ComparisonResult.t) :
  Server.get_compare env req =
    (tr, inr (Server.json 200 (JsonComparison result))) →
  let winsA := wins (Num 1) (ComparisonResult.categories result) in
  let winsB := wins (Num 2) (ComparisonResult.categories result) in
  (ComparisonResult.overall_winner result = Num 1 ↔ (winsB < winsA)%nat) ∧
  (ComparisonResult.overall_winner result = Num 2 ↔ (winsA < winsB)%nat) ∧
  (ComparisonResult.overall_winner result = Str "tie" ↔ winsA = winsB).
Proof.
  intros Hrun.
  destruct (get_compare_success_inv env req tr _ Hrun eq_refl)
    as (id1 & id2 & superheroes & hero1 & hero2 & _ & _ & _ & _ & _ & _
        & Hresp).
  injection Hresp as ->. rewrite compare_heroes_eq.
  cbn [ComparisonResult.categories ComparisonResult.overall_winner].
  set (winsA := wins (Num 1) _). set (winsB := wins (Num 2) _).
  destruct (Nat.ltb_spec winsB winsA), (Nat.ltb_spec winsA winsB);
    repeat split; intros; simplify_eq; try done; lia.
Qed.

(** Heroes 1 and 2 of the sample catalog win three categories each. *)
Lemma overall_winner_by_tally_witness :
  let result := Server.compare_heroes (JS.of_Z 1) (JS.of_Z 2)
                  (hero 1 "A-Bomb" (stats 38 100 17 80 24 64))
                  (hero 2 "Abe Sapien" (stats 100 18 23 28 32 32)) in
  wins (Num 1) (ComparisonResult.categories result) = 3%nat ∧
  wins (Num 2) (ComparisonResult.categories result) = 3%nat ∧
  (ComparisonResult.overall_winner result = Str "tie" ↔ 3%nat = 3%nat).
Proof.
  intros result.
  split; [vm_compute; reflexivity|]. split; [vm_compute; reflexivity|].
  apply (overall_winner_by_tally sample_env (compare_request "1" "2")
           [ReadFile "backend/data/superheroes.json"] result).
  vm_compute; reflexivity.
Defined.

(** C4. A successful answer carries [id1] and [id2], the numbers the two
    query parameters convert to; a [categories] array of exactly six
    records named intelligence, strength, speed, durability, power and
    combat, in that order; and an [overall_winner]. Every record carries
    under [id1_value] and [id2_value] what the powerstats of the two heroes
    found for [id1] and [id2] hold under the record's name. Every winner,
    in a record or overall, is the number 1, the number 2 or the string
    [tie]: in a record 1 stands for the first value being greater, 2 for
    the second being greater and [tie] for neither; overall 1 stands for
    the first hero having won more records, 2 for the second having won
    more and [tie] for equal tallies. *)
Theorem comparison_result_shape
    (env : Env) (req : Request) (tr : list Event) (resp : Response) :
  Server.get_compare env req = (tr, inr resp) →
  status resp = 200 →
  ∃ result superheroes hero1 hero2,
    body resp = JsonComparison result ∧
    Number (query req !! "id1") = inr (ComparisonResult.id1 result) ∧
    Number (query req !! "id2") = inr (ComparisonResult.id2 result) ∧
    JS.isNaN (ComparisonResult.id1 result) = false ∧
    JS.isNaN (ComparisonResult.id2 result) = false ∧
    loaded env superheroes ∧
    find_by_number superheroes (ComparisonResult.id1 result) = Some hero1 ∧
    find_by_number superheroes (ComparisonResult.id2 result) = Some hero2 ∧
    length (ComparisonResult.categories result) = 6%nat ∧
    map CategoryResult.name (ComparisonResult.categories result) =
      ["intelligence"; "strength"; "speed"; "durability"; "power"; "combat"] ∧
    Forall (fun r =>
              CategoryResult.id1_value r =
                Superhero.powerstats hero1 !! CategoryResult.name r ∧
              CategoryResult.id2_value r =
                Superhero.powerstats hero2 !! CategoryResult.name r ∧
              (CategoryResult.winner r = render First ↔
                 JS.gt (CategoryResult.id1_value r)
                       (CategoryResult.id2_value r) = true) ∧
              (CategoryResult.winner r = render Second ↔
                 JS.gt (CategoryResult.id2_value r)
                       (CategoryResult.id1_value r) = true) ∧
              (CategoryResult.winner r = render Tie ↔
                 JS.gt (CategoryResult.id1_value r)
                       (CategoryResult.id2_value r) = false ∧
                 JS.gt (CategoryResult.id2_value r)
                       (CategoryResult.id1_value r) = false))
      (ComparisonResult.categories result) ∧
    Forall (fun r => ∃ w, CategoryResult.winner r = render w)
      (ComparisonResult.categories result) ∧
    (∃ w, ComparisonResult.overall_winner result = render w) ∧
    (ComparisonResult.overall_winner result = render First ↔
       (wins (Num 2) (ComparisonResult.categories result) <
        wins (Num 1) (ComparisonResult.categories result))%nat) ∧
    (ComparisonResult.overall_winner result = render Second ↔
       (wins (Num 1) (ComparisonResult.categories result) <
        wins (Num 2) (ComparisonResult.categories result))%nat) ∧
    (ComparisonResult.overall_winner result = render Tie ↔
       wins (Num 1) (ComparisonResult.categories result) =
       wins (Num 2) (ComparisonResult.categories result)).
Proof.
  intros Hrun Hst.
  destruct (get_compare_success_inv env req tr resp Hrun Hst)
    as (id1 & id2 & superheroes & hero1 & hero2 & N1 & N2 & Hl & H1 & H2
        & _ & ->).
  exists (Server.compare_heroes id1 id2 hero1 hero2), superheroes,
    hero1, hero2.
  split; [done|]. rewrite compare_heroes_eq.
  cbn [ComparisonResult.id1 ComparisonResult.id2
       ComparisonResult.categories ComparisonResult.overall_winner].
  do 2 (split; [done|]).
  split; [by apply find_by_number_Some_valid in H1|].
  split; [by apply find_by_number_Some_valid in H2|].
  do 4 (split; [done|]).
  split; [unfold Server.categoriesOrder; cbn [map];
          by rewrite !category_entry_eq|].
  split; [|split; [|split]].
  - apply Forall_forall. intros r [cat [<- _]]%list_elem_of_In%in_map_iff.
    rewrite category_entry_eq.
    cbn [CategoryResult.name CategoryResult.winner
         CategoryResult.id1_value CategoryResult.id2_value render].
    do 2 (split; [done|]).
    destruct (JS.gt (Superhero.powerstats hero1 !! cat)
                    (Superhero.powerstats hero2 !! cat)) eqn:G12.
    + rewrite (gt_asym _ _ G12). repeat split; try done; by intros [? ?].
    + destruct (JS.gt (Superhero.powerstats hero2 !! cat)
                      (Superhero.powerstats hero1 !! cat));
        repeat split; try done; by intros [? ?].
  - apply Forall_forall. intros r [cat [<- _]]%list_elem_of_In%in_map_iff.
    rewrite category_entry_eq. cbn [CategoryResult.winner].
    repeat case_match; [by exists First|by exists Second|by exists Tie].
  - repeat case_match; [by exists First|by exists Second|by exists Tie].
  - cbn [render].
    set (winsA := wins (Num 1) _). set (winsB := wins (Num 2) _).
    destruct (Nat.ltb_spec winsB winsA), (Nat.ltb_spec winsA winsB);
      repeat split; intros; simplify_eq; try done; lia.
Qed.

Lemma comparison_result_shape_witness :
  ∃ result superheroes hero1 hero2,
    body (Server.json 200 (JsonComparison
            (Server.compare_heroes (JS.of_Z 3) (JS.of_Z 2)
               (hero 3 "Abin Sur" (stats 90 55 43 80 62 82))
               (hero 2 "Abe Sapien" (stats 100 18 23 28 32 32))))) = JsonComparison result ∧
    Number (query (compare_request "3" "2") !! "id1") = inr (ComparisonResult.id1 result) ∧
    Number (query (compare_request "3" "2") !! "id2") = inr (ComparisonResult.id2 result) ∧
    JS.isNaN (ComparisonResult.id1 result) = false ∧
    JS.isNaN (ComparisonResult.id2 result) = false ∧
    loaded sample_env superheroes ∧
    find_by_number superheroes (ComparisonResult.id1 result) = Some hero1 ∧
    find_by_number superheroes (ComparisonResult.id2 result) = Some hero2 ∧
    length (ComparisonResult.categories result) = 6%nat ∧
    map CategoryResult.name (ComparisonResult.categories result) =
      ["intelligence"; "strength"; "speed"; "durability"; "power"; "combat"] ∧
    Forall (fun r =>
              CategoryResult.id1_value r =
                Superhero.powerstats hero1 !! CategoryResult.name r ∧
              CategoryResult.id2_value r =
                Superhero.powerstats hero2 !! CategoryResult.name r ∧
              (CategoryResult.winner r = render First ↔
                 JS.gt (CategoryResult.id1_value r)
                       (CategoryResult.id2_value r) = true) ∧
              (CategoryResult.winner r = render Second ↔
                 JS.gt (CategoryResult.id2_value r)
                       (CategoryResult.id1_value r) = true) ∧
              (CategoryResult.winner r = render Tie ↔
                 JS.gt (CategoryResult.id1_value r)
                       (CategoryResult.id2_value r) = false ∧
                 JS.gt (CategoryResult.id2_value r)
                       (CategoryResult.id1_value r) = false))
      (ComparisonResult.categories result) ∧
    Forall (fun r => ∃ w, CategoryResult.winner r = render w)
      (ComparisonResult.categories result) ∧
    (∃ w, ComparisonResult.overall_winner result = render w) ∧
    (ComparisonResult.overall_winner result = render First ↔
       (wins (Num 2) (ComparisonResult.categories result) <
        wins (Num 1) (ComparisonResult.categories result))%nat) ∧
    (ComparisonResult.overall_winner result = render Second ↔
       (wins (Num 1) (ComparisonResult.categories result) <
        wins (Num 2) (ComparisonResult.categories result))%nat) ∧
    (ComparisonResult.overall_winner result = render Tie ↔
       wins (Num 1) (ComparisonResult.categories result) =
       wins (Num 2) (ComparisonResult.categories result)).
Proof.
  apply (comparison_result_shape sample_env (compare_request "3" "2")
           [ReadFile "backend/data/superheroes.json"]);
    vm_compute; reflexivity.
Defined.

(** *** Exchanging the two heroes *)

Section Mirror.

Lemma flip_Num1 w : flip w = Num 1 ↔ w = Num 2.
Proof. unfold flip. repeat case_decide; naive_solver. Qed.

Lemma flip_Num2 w : flip w = Num 2 ↔ w = Num 1.
Proof. unfold flip. repeat case_decide; naive_solver. Qed.

Lemma category_entry_mirror hero1 hero2 cat :
  category_entry hero2 hero1 cat =
    mirror_category (category_entry hero1 hero2 cat).
Proof.
  rewrite !category_entry_eq. unfold mirror_category.
  cbn [CategoryResult.name CategoryResult.winner CategoryResult.id1_value
       CategoryResult.id2_value].
  f_equal.
  destruct (JS.gt (Superhero.powerstats hero1 !! cat)
                  (Superhero.powerstats hero2 !! cat)) eqn:H12.
  - by rewrite (gt_asym _ _ H12).
  - by destruct (JS.gt (Superhero.powerstats hero2 !! cat)
                       (Superhero.powerstats hero1 !! cat)).
Qed.

Lemma wins_mirror_1 rs :
  wins (Num 1) (map mirror_category rs) = wins (Num 2) rs.
Proof.
  induction rs as [|r rs IH]; [done|].
  cbn [map]. rewrite !wins_cons, IH. cbn [mirror_category CategoryResult.winner].
  destruct (decide (flip (CategoryResult.winner r) = Num 1)) as [Hf|Hf],
    (decide (CategoryResult.winner r = Num 2)) as [Hw|Hw]; try done.
  - by apply flip_Num1 in Hf.
  - by apply flip_Num1 in Hw.
Qed.

Lemma wins_mirror_2 rs :
  wins (Num 2) (map mirror_category rs) = wins (Num 1) rs.
Proof.
  induction rs as [|r rs IH]; [done|].
  cbn [map]. rewrite !wins_cons, IH. cbn [mirror_category CategoryResult.winner].
  destruct (decide (flip (CategoryResult.winner r) = Num 2)) as [Hf|Hf],
    (decide (CategoryResult.winner r = Num 1)) as [Hw|Hw]; try done.
  - by apply flip_Num2 in Hf.
  - by apply flip_Num2 in Hw.
Qed.

Lemma compare_heroes_mirror id1 id2 hero1 hero2 :
  Server.compare_heroes id2 id1 hero2 hero1 =
    mirror (Server.compare_heroes id1 id2 hero1 hero2).
Proof.
  rewrite !compare_heroes_eq. unfold mirror.
  cbn [ComparisonResult.id1 ComparisonResult.id2
       ComparisonResult.categories ComparisonResult.overall_winner].
  assert (map (category_entry hero2 hero1) Server.categoriesOrder =
          map mirror_category
            (map (category_entry hero1 hero2) Server.categoriesOrder))
    as ->.
  { rewrite map_map. apply map_ext. intros cat.
    apply category_entry_mirror. }
  rewrite wins_mirror_1, wins_mirror_2. f_equal.
  set (winsA := wins (Num 1) _). set (winsB := wins (Num 2) _).
  destruct (Nat.ltb_spec winsB winsA), (Nat.ltb_spec winsA winsB);
    try lia; done.
Qed.

End Mirror.

(** C5. Exchanging the two identifiers of a successful comparison gives
    the mirrored result: the two identifiers change places, each category
    keeps its name and position while its two values change places and
    its winner turns from 1 to 2 or from 2 to 1 ([tie] stays), and the
    overall winner turns the same way. *)
Theorem compare_mirror
    (env : Env) (req req' : Request) (tr : list Event)
    (result : ComparisonResult.t) :
  query req' !! "id1" = query req !! "id2" →
  query req' !! "id2" = query req !! "id1" →
  Server.get_compare env req =
    (tr, inr (Server.json 200 (JsonComparison result))) →
  Server.get_compare env req' =
    (tr, inr (Server.json 200 (JsonComparison (mirror result)))).
Proof.
  intros Hq1 Hq2 Hrun.
  destruct (get_compare_success_inv env req tr _ Hrun eq_refl)
    as (id1 & id2 & superheroes & hero1 & hero2 & N1 & N2 & Hl & H1 & H2
        & -> & Hresp).
  injection Hresp as ->.
  rewrite <- compare_heroes_mirror.
  assert (Number (query req' !! "id1") = inr id2) as N1'
    by (by rewrite Hq1).
  assert (Number (query req' !! "id2") = inr id1) as N2'
    by (by rewrite Hq2).
  by apply (get_compare_found env req' id2 id1 N1' N2' superheroes).
Qed.

Lemma compare_mirror_witness :
  Server.get_compare sample_env (compare_request "2" "3") =
    ([ReadFile "backend/data/superheroes.json"],
     inr (Server.json 200 (JsonComparison
            (mirror (Server.compare_heroes (JS.of_Z 3) (JS.of_Z 2)
                       (hero 3 "Abin Sur" (stats 90 55 43 80 62 82))
                       (hero 2 "Abe Sapien" (stats 100 18 23 28 32 32))))))).
Proof.
  apply (compare_mirror sample_env (compare_request "3" "2")
           (compare_request "2" "3"));
    vm_compute; reflexivity.
Defined.

(** C6. When both identifiers resolve to the same hero, all six
    categories are tied and so is the overall result. *)
Theorem self_comparison_ties
    (env : Env) (req : Request) (id1 id2 : JS.number)
    (superheroes : list Superhero.t) (hero : Superhero.t) :
  loaded env superheroes →
  Number (query req !! "id1") = inr id1 →
  Number (query req !! "id2") = inr id2 →
  find_by_number superheroes id1 = Some hero →
  find_by_number superheroes id2 = Some hero →
  ∃ tr result,
    Server.get_compare env req =
      (tr, inr (Server.json 200 (JsonComparison result))) ∧
    length (ComparisonResult.categories result) = 6%nat ∧
    Forall (fun r => CategoryResult.winner r = Str "tie")
      (ComparisonResult.categories result) ∧
    ComparisonResult.overall_winner result = Str "tie".
Proof.
  intros Hl N1 N2 H1 H2. eexists _, _.
  split; [by apply (get_compare_found env req id1 id2 N1 N2 superheroes)|].
  rewrite compare_heroes_eq.
  cbn [ComparisonResult.categories ComparisonResult.overall_winner].
  assert (Forall (fun r => CategoryResult.winner r = Str "tie")
            (map (category_entry hero hero) Server.categoriesOrder)) as Hties.
  { apply Forall_forall. intros r [cat [<- _]]%list_elem_of_In%in_map_iff.
    rewrite category_entry_eq. cbn [CategoryResult.winner].
    by rewrite gt_irrefl. }
  split; [done|]. split; [done|].
  assert (∀ n rs, Forall (fun r => CategoryResult.winner r = Str "tie") rs →
                  wins (Num n) rs = 0%nat) as Hzero.
  { intros n rs Hrs. induction Hrs as [|r rs Hr _ IH]; [done|].
    rewrite wins_cons, IH, Hr. by case_decide. }
  by rewrite !Hzero.
Qed.

Lemma self_comparison_ties_witness :
  ∃ tr result,
    Server.get_compare sample_env (compare_request "10" "1e1") =
      (tr, inr (Server.json 200 (JsonComparison result))) ∧
    length (ComparisonResult.categories result) = 6%nat ∧
    Forall (fun r => CategoryResult.winner r = Str "tie")
      (ComparisonResult.categories result) ∧
    ComparisonResult.overall_winner result = Str "tie".
Proof.
  apply (self_comparison_ties sample_env (compare_request "10" "1e1")
           (JS.of_Z 10) (JS.of_Z 10)
           sample_catalog (hero 10 "Agent Bob" (stats 10 8 13 5 5 20)));
    vm_compute; reflexivity.
Defined.

(** C7. With two identifiers that are numbers and a catalog that loads,
    a miss on either identifier gives 404 with the one message
    [Superhero not found]: no comparison is produced, and the answer is
    the same whichever identifier missed. *)
Theorem unresolved_identifier_not_found
    (env : Env) (req : Request) (id1 id2 : JS.number)
    (superheroes : list Superhero.t) :
  Number (query req !! "id1") = inr id1 →
  Number (query req !! "id2") = inr id2 →
  JS.isNaN id1 = false →
  JS.isNaN id2 = false →
  loaded env superheroes →
  find_by_number superheroes id1 = None ∨
  find_by_number superheroes id2 = None →
  Server.get_compare env req =
    ([ReadFile (dataPath env)],
     inr (Server.json 404 (JsonError "Superhero not found"))).
Proof.
  intros N1 N2 Hn1 Hn2 Hl Hmiss.
  rewrite (get_compare_loaded env req id1 id2 N1 N2 superheroes);
    [|by rewrite Hn1, Hn2|done].
  destruct Hmiss as [-> | ->]; [done|].
  by destruct (find_by_number superheroes _).
Qed.

Lemma unresolved_identifier_not_found_witness :
  Server.get_compare sample_env (compare_request "1" "99999") =
    ([ReadFile "backend/data/superheroes.json"],
     inr (Server.json 404 (JsonError "Superhero not found"))).
Proof.
  apply (unresolved_identifier_not_found sample_env
           (compare_request "1" "99999") (JS.of_Z 1) (JS.of_Z 99999)
           sample_catalog);
    [vm_compute; reflexivity | vm_compute; reflexivity
    | vm_compute; reflexivity | vm_compute; reflexivity
    | vm_compute; reflexivity | right; vm_compute; reflexivity].
Defined.

(** ** The other routes *)

Section SingleHeroCases.

Variables (env : Env) (req : Request).

Lemma get_superheroes_rejected err :
  snd (Server.loadSuperheroes env) = inl err →
  Server.get_superheroes env req =
    ([ReadFile (dataPath env);
      ConsoleError "Error loading superheroes data:" err],
     inr (Server.send 500 "Internal Server Error")).
Proof.
  intros Hl. unfold Server.get_superheroes.
  by rewrite (load_rejected _ _ Hl).
Qed.

Lemma get_superhero_rejected err :
  snd (Server.loadSuperheroes env) = inl err →
  Server.get_superhero env req =
    ([ReadFile (dataPath env);
      ConsoleError "Error loading superheroes data:" err],
     inr (Server.send 500 "Internal Server Error")).
Proof.
  intros Hl. unfold Server.get_superhero.
  by rewrite (load_rejected _ _ Hl).
Qed.

Lemma get_powerstats_rejected err :
  snd (Server.loadSuperheroes env) = inl err →
  Server.get_powerstats env req =
    ([ReadFile (dataPath env);
      ConsoleError "Error loading superheroes data:" err],
     inr (Server.send 500 "Internal Server Error")).
Proof.
  intros Hl. unfold Server.get_powerstats.
  by rewrite (load_rejected _ _ Hl).
Qed.

Lemma get_superhero_loaded superheroes :
  loaded env superheroes →
  Server.get_superhero env req =
    ([ReadFile (dataPath env)],
     inr match find_by_text superheroes (params req !! "id") with
         | Some superhero => Server.json 200 (JsonSuperhero superhero)
         | None => Server.send 404 "Superhero not found"
         end).
Proof.
  intros Hl. unfold Server.get_superhero, find_by_text.
  rewrite (load_resolved _ _ Hl). cbn [try_catch bind resolve].
  by destruct (find _ superheroes).
Qed.

Lemma get_powerstats_loaded superheroes :
  loaded env superheroes →
  Server.get_powerstats env req =
    ([ReadFile (dataPath env)],
     inr match find_by_text superheroes (params req !! "id") with
         | Some superhero =>
             Server.json 200
               (JsonPowerstats (Superhero.powerstats superhero))
         | None => Server.send 404 "Superhero not found"
         end).
Proof.
  intros Hl. unfold Server.get_powerstats, find_by_text.
  rewrite (load_resolved _ _ Hl). cbn [try_catch bind resolve].
  by destruct (find _ superheroes).
Qed.

End SingleHeroCases.



Lemma not_a_category (key : string) :
  bool_decide (key ∈ Server.categoriesOrder) = false →
  ¬ key ∈ Server.categoriesOrder.
Proof. apply bool_decide_eq_false_1. Qed.

(** C9. For an identifier whose text matches a hero, the powerstats route
    answers 200 with that hero's [powerstats] object and nothing around
    it; when the object has exactly the six category keys, the answer has
    a value for each of the six categories and for no other key, so
    neither [id] nor [name] appears in it. For an identifier that matches
    no hero the answer is 404 [Superhero not found]. *)
Theorem powerstats_projection
    (env : Env) (req : Request) (superheroes : list Superhero.t) :
  loaded env superheroes →
  (∀ superhero,
     find_by_text superheroes (params req !! "id") = Some superhero →
     dom (Superhero.powerstats superhero) =
       list_to_set Server.categoriesOrder →
     ∃ answer,
       Server.get_powerstats env req =
         ([ReadFile (dataPath env)],
          inr (Server.json 200 (JsonPowerstats answer))) ∧
       answer = Superhero.powerstats superhero ∧
       (∀ key, is_Some (answer !! key) ↔ key ∈ Server.categoriesOrder) ∧
       size answer = 6%nat ∧
       answer !! "id" = None ∧ answer !! "name" = None) ∧
  (find_by_text superheroes (params req !! "id") = None →
   Server.get_powerstats env req =
     ([ReadFile (dataPath env)],
      inr (Server.send 404 "Superhero not found"))).
Proof.
  intros Hl. rewrite (get_powerstats_loaded env req superheroes Hl).
  split.
  - intros superhero -> Hdom. eexists. split; [done|]. split; [done|].
    assert (∀ key, is_Some (Superhero.powerstats superhero !! key) ↔
                   key ∈ Server.categoriesOrder) as Hkeys.
    { intros key. rewrite <- elem_of_dom, Hdom. apply elem_of_list_to_set. }
    split; [done|]. split.
    + rewrite <- size_dom, Hdom. by vm_compute.
    + split; apply eq_None_not_Some; rewrite Hkeys;
        apply not_a_category; by vm_compute.
  - by intros ->.
Qed.

Lemma powerstats_projection_witness :
  ∃ answer,
    Server.get_powerstats sample_env (hero_request "2") =
      ([ReadFile "backend/data/superheroes.json"],
       inr (Server.json 200 (JsonPowerstats answer))) ∧
    answer = stats 100 18 23 28 32 32 ∧
    (∀ key, is_Some (answer !! key) ↔ key ∈ Server.categoriesOrder) ∧
    size answer = 6%nat ∧
    answer !! "id" = None ∧ answer !! "name" = None.
Proof.
  apply (proj1 (powerstats_projection sample_env (hero_request "2")
                  sample_catalog eq_refl)
           (hero 2 "Abe Sapien" (stats 100 18 23 28 32 32)));
    vm_compute; reflexivity.
Defined.

(** ** Two ways of resolving an identifier *)

Section Resolution.

Lemma all_digits_uint d : all_digits (NilEmpty.string_of_uint d) = true.
Proof. induction d; simpl; by rewrite ?IHd. Qed.

Lemma decimal_text_uint d : decimal_text (NilZero.string_of_uint d) = true.
Proof. destruct d; try done; simpl; apply all_digits_uint. Qed.

Lemma all_digits_decimal_text s :
  s ≠ EmptyString → all_digits s = true → decimal_text s = true.
Proof.
  destruct s as [|c s]; [done|]. simpl. intros _.
  intros [-> ->]%andb_true_iff. by rewrite orb_true_r.
Qed.

(** All the digits of an integer: a minus sign or a digit, followed by
    digits. *)
Lemma decimal_text_decimal z : decimal_text (JS.decimal z) = true.
Proof.
  unfold JS.decimal. destruct (Z.to_int z) as [d|d]; simpl.
  - apply decimal_text_uint.
  - destruct d; simpl; try done; apply all_digits_uint.
Qed.

(** Below 2^53 an id prints as all its digits. *)
Lemma String_of_Z_safe z :
  safe_integer z → JS.String_of_Z z = JS.decimal z.
Proof.
  unfold safe_integer, JS.String_of_Z. intros Hz.
  assert ((Z.abs z <? 2 ^ 53)%Z = true) as -> by (apply Z.ltb_lt; lia).
  done.
Qed.

Lemma decimal_text_String_of_Z z :
  safe_integer z → decimal_text (JS.String_of_Z z) = true.
Proof. intros Hz. rewrite (String_of_Z_safe z Hz). apply decimal_text_decimal. Qed.

Lemma find_by_text_not_decimal superheroes s :
  Forall (fun h => safe_integer (Superhero.id h)) superheroes →
  decimal_text s = false → find_by_text superheroes (Some s) = None.
Proof.
  intros Hsafe Hs. unfold find_by_text.
  induction Hsafe as [|h l Hh _ IH]; [done|].
  simpl. unfold Server.same_id_text at 1. simpl.
  destruct (String.eqb_spec (JS.String_of_Z (Superhero.id h)) s) as [<-|_];
    [|done].
  by rewrite (decimal_text_String_of_Z _ Hh) in Hs.
Qed.

Lemma find_is_Some {A} (P : A → bool) (l : list A) :
  is_Some (find P l) ↔ ∃ x, x ∈ l ∧ P x = true.
Proof.
  split.
  - intros [x Hx]. apply find_some in Hx as [Hin HP].
    exists x. by rewrite list_elem_of_In.
  - intros (x & Hin%list_elem_of_In & HP).
    destruct (find P l) eqn:Hf; [done|].
    by rewrite (find_none _ _ Hf x Hin) in HP.
Qed.

End Resolution.

(** C10. The compare route resolves an identifier by number: it succeeds
    exactly when, for each of the two query values, some hero's numeric id
    is strictly equal to the number the value converts to. The two
    single-hero routes resolve by text: each succeeds exactly when some
    hero's id, printed as a string, equals the route parameter. So against
    any catalog holding a hero with id 10, the identifiers [1e1] and
    [ 10] (with a leading space) are compared successfully, while the
    single-hero route and the powerstats route answer 404 for them. *)
Theorem resolution_relations_differ
    (env : Env) (superheroes : list Superhero.t) (hero10 : Superhero.t)
    (s : string) :
  loaded env superheroes →
  Forall (fun h => safe_integer (Superhero.id h)) superheroes →
  hero10 ∈ superheroes →
  Superhero.id hero10 = 10 →
  s = "1e1" ∨ s = " 10" →
  (∀ req,
     (∃ tr result, Server.get_compare env req =
        (tr, inr (Server.json 200 (JsonComparison result)))) ↔
     (∃ h n, h ∈ superheroes ∧
        Number (query req !! "id1") = inr n ∧
        JS.strict_eq (JS.of_Z (Superhero.id h)) n = true) ∧
     (∃ h n, h ∈ superheroes ∧
        Number (query req !! "id2") = inr n ∧
        JS.strict_eq (JS.of_Z (Superhero.id h)) n = true)) ∧
  (∀ req,
     (∃ tr h, Server.get_superhero env req =
        (tr, inr (Server.json 200 (JsonSuperhero h)))) ↔
     (∃ h, h ∈ superheroes ∧
        JS.String_of_Z (Superhero.id h) =
          String_of_param (params req !! "id"))) ∧
  (∀ req,
     (∃ tr p, Server.get_powerstats env req =
        (tr, inr (Server.json 200 (JsonPowerstats p)))) ↔
     (∃ h, h ∈ superheroes ∧
        JS.String_of_Z (Superhero.id h) =
          String_of_param (params req !! "id"))) ∧
  (∃ result, Server.get_compare env (compare_request s s) =
     ([ReadFile (dataPath env)],
      inr (Server.json 200 (JsonComparison result)))) ∧
  Server.get_superhero env (hero_request s) =
    ([ReadFile (dataPath env)], inr (Server.send 404 "Superhero not found")) ∧
  Server.get_powerstats env (hero_request s) =
    ([ReadFile (dataPath env)], inr (Server.send 404 "Superhero not found")).
Proof.
  intros Hl Hsafe Hin Hid Hs.
  assert (∀ req,
    (∃ tr result, Server.get_compare env req =
       (tr, inr (Server.json 200 (JsonComparison result)))) ↔
    (∃ h n, h ∈ superheroes ∧
       Number (query req !! "id1") = inr n ∧
       JS.strict_eq (JS.of_Z (Superhero.id h)) n = true) ∧
    (∃ h n, h ∈ superheroes ∧
       Number (query req !! "id2") = inr n ∧
       JS.strict_eq (JS.of_Z (Superhero.id h)) n = true)) as Hnumber.
  { intros req. split.
    - intros (tr & result & Hrun).
      destruct (get_compare_success_inv env req tr _ Hrun eq_refl)
        as (id1 & id2 & l & h1 & h2 & N1 & N2 & Hl' & H1 & H2 & _).
      unfold loaded in Hl, Hl'. rewrite Hl in Hl'. injection Hl' as <-.
      unfold find_by_number in H1, H2.
      apply find_some in H1 as [Hin1 E1]. apply find_some in H2 as [Hin2 E2].
      split; [exists h1, id1|exists h2, id2];
        by rewrite list_elem_of_In.
    - intros [(h1 & n1 & Hin1 & N1 & E1) (h2 & n2 & Hin2 & N2 & E2)].
      destruct (proj2 (find_is_Some
                  (fun h => JS.strict_eq (JS.of_Z (Superhero.id h)) n1)
                  superheroes)) as [h1' F1]; [by exists h1|].
      destruct (proj2 (find_is_Some
                  (fun h => JS.strict_eq (JS.of_Z (Superhero.id h)) n2)
                  superheroes)) as [h2' F2]; [by exists h2|].
      eexists _, _.
      by apply (get_compare_found env req n1 n2 N1 N2 superheroes h1' h2'). }
  assert (∀ req,
    is_Some (find_by_text superheroes (params req !! "id")) ↔
    (∃ h, h ∈ superheroes ∧
       JS.String_of_Z (Superhero.id h) =
         String_of_param (params req !! "id"))) as Htext.
  { intros req. unfold find_by_text. rewrite find_is_Some.
    unfold Server.same_id_text.
    split; intros (h & Hh & Heq); exists h; split; try done;
      by apply String.eqb_eq. }
  split; [done|]. split; [|split].
  - intros req. rewrite <- Htext, (get_superhero_loaded env req _ Hl).
    destruct (find_by_text superheroes _) as [h|]; split.
    + by eexists.
    + intros _. by eexists _, _.
    + intros (tr & h & Heq). by simplify_eq.
    + by intros [h ?].
  - intros req. rewrite <- Htext, (get_powerstats_loaded env req _ Hl).
    destruct (find_by_text superheroes _) as [h|]; split.
    + by eexists.
    + intros _. by eexists _, _.
    + intros (tr & h & Heq). by simplify_eq.
    + by intros [h ?].
  - assert (params (hero_request s) !! "id" = Some s) as Hparam
      by apply lookup_singleton_eq.
    assert (decimal_text s = false) as Hnot
      by (by destruct Hs as [-> | ->]).
    split; [|split].
    + assert (Number (query (compare_request s s) !! "id1") =
                inr (JS.of_Z 10)
              ∧ Number (query (compare_request s s) !! "id2") =
                inr (JS.of_Z 10)) as [N1 N2]
        by (by destruct Hs as [-> | ->]; vm_compute).
      assert (JS.strict_eq (JS.of_Z (Superhero.id hero10)) (JS.of_Z 10)
              = true) as E by (by rewrite Hid).
      destruct (proj2 (Hnumber (compare_request s s))) as (tr & result & Hrun).
      { split; by exists hero10, (JS.of_Z 10). }
      exists result.
      destruct (get_compare_success_inv env _ tr _ Hrun eq_refl)
        as (_ & _ & _ & _ & _ & _ & _ & _ & _ & _ & -> & _).
      done.
    + rewrite (get_superhero_loaded env _ _ Hl), Hparam.
      by rewrite (find_by_text_not_decimal _ _ Hsafe Hnot).
    + rewrite (get_powerstats_loaded env _ _ Hl), Hparam.
      by rewrite (find_by_text_not_decimal _ _ Hsafe Hnot).
Qed.

Lemma resolution_relations_differ_witness :
  (∃ result, Server.get_compare sample_env (compare_request "1e1" "1e1") =
     ([ReadFile "backend/data/superheroes.json"],
      inr (Server.json 200 (JsonComparison result)))) ∧
  Server.get_superhero sample_env (hero_request "1e1") =
    ([ReadFile "backend/data/superheroes.json"],
     inr (Server.send 404 "Superhero not found")) ∧
  Server.get_powerstats sample_env (hero_request "1e1") =
    ([ReadFile "backend/data/superheroes.json"],
     inr (Server.send 404 "Superhero not found")).
Proof.
  apply (resolution_relations_differ sample_env sample_catalog
           (hero 10 "Agent Bob" (stats 10 8 13 5 5 20)) "1e1").
  - reflexivity.
  - unfold sample_catalog, safe_integer. repeat constructor.
  - unfold sample_catalog. do 3 apply list_elem_of_further.
    apply list_elem_of_here.
  - reflexivity.
  - left. reflexivity.
Defined.

(** ** Validation of the two identifiers *)

(** An identifier that is absent or converts to NaN is refused with 400
    before the data file is read. *)
Lemma invalid_identifier_rejected
    (env : Env) (req : Request) (id1 id2 : JS.number) :
  Number (query req !! "id1") = inr id1 →
  Number (query req !! "id2") = inr id2 →
  JS.isNaN id1 = true ∨ JS.isNaN id2 = true →
  Server.get_compare env req =
    ([], inr (Server.json 400 (JsonError
       "Both id1 and id2 query parameters must be valid numbers."))).
Proof.
  intros N1 N2 Hn. apply (get_compare_invalid env req id1 id2 N1 N2).
  destruct Hn as [-> | ->]; [done | apply orb_true_r].
Qed.

Example missing_id2_rejected (env : Env) :
  Server.get_compare env
    {| query := {[ "id1" := QString "1" ]}; params := ∅ |} =
    ([], inr (Server.json 400 (JsonError
       "Both id1 and id2 query parameters must be valid numbers."))).
Proof.
  apply (invalid_identifier_rejected env _ (JS.of_Z 1) JS.NaN);
    [by vm_compute | by vm_compute | by right].
Qed.

Example non_numeric_id_rejected (env : Env) :
  Server.get_compare env (compare_request "abc" "2") =
    ([], inr (Server.json 400 (JsonError
       "Both id1 and id2 query parameters must be valid numbers."))).
Proof.
  apply (invalid_identifier_rejected env _ JS.NaN (JS.of_Z 2));
    [by vm_compute | by vm_compute | by left].
Qed.

(** C3, at the input [id1=1&id2=] (an empty second identifier). [Number]
    turns the empty string into 0, so the request passes the NaN check:
    whatever the data file holds, the file is read and the answer is not
    400. On the sample catalog, which has no hero 0, the answer is 404
    [Superhero not found]. When [id2] is absent altogether the answer is
    400 before any read, with a message in which the word [required] does
    not occur. *)
Theorem empty_identifier_reaches_catalog :
  Number (Some (QString "")) = inr (S754_zero false) ∧
  (∀ env : Env, ∃ tr resp,
     Server.get_compare env (compare_request "1" "") =
       (ReadFile (dataPath env) :: tr, inr resp) ∧
     status resp ≠ 400) ∧
  Server.get_compare sample_env (compare_request "1" "") =
    ([ReadFile "backend/data/superheroes.json"],
     inr (Server.json 404 (JsonError "Superhero not found"))) ∧
  (∀ env : Env, ∃ message,
     Server.get_compare env
       {| query := {[ "id1" := QString "1" ]}; params := ∅ |} =
       ([], inr (Server.json 400 (JsonError message))) ∧
     String.index 0 "required" message = None).
Proof.
  split; [done|]. split; [|split; [by vm_compute|]].
  2:{ intros env. eexists. split; [apply missing_id2_rejected|].
      by vm_compute. }
  intros env.
  assert (Number (query (compare_request "1" "") !! "id1") =
          inr (JS.of_Z 1)) as N1 by (by vm_compute).
  assert (Number (query (compare_request "1" "") !! "id2") =
          inr (S754_zero false)) as N2 by (by vm_compute).
  assert (JS.isNaN (JS.of_Z 1) || JS.isNaN (S754_zero false) = false)
    as Hv by done.
  destruct (load_cases env) as [[err Hl]|[superheroes Hl]].
  - rewrite (get_compare_rejected env _ _ _ N1 N2 err Hv Hl).
    by eexists _, _.
  - rewrite (get_compare_loaded env _ _ _ N1 N2 superheroes Hv Hl).
    eexists _, _. split; [done|].
    by repeat case_match.
Qed.

(** ** Scenarios on the sample catalog *)

(** Hero 2 against hero 3: the first wins intelligence only, the second
    wins the other five categories and the comparison. *)
Example scenario_second_wins :
  ∃ result,
    Server.get_compare sample_env (compare_request "2" "3") =
      ([ReadFile "backend/data/superheroes.json"],
       inr (Server.json 200 (JsonComparison result))) ∧
    map CategoryResult.winner (ComparisonResult.categories result) =
      [Num 1; Num 2; Num 2; Num 2; Num 2; Num 2] ∧
    ComparisonResult.overall_winner result = Num 2.
Proof. eexists. by vm_compute. Qed.

(** Hero 1 against hero 2: three categories each, an overall tie. *)
Example scenario_three_all :
  ∃ result,
    Server.get_compare sample_env (compare_request "1" "2") =
      ([ReadFile "backend/data/superheroes.json"],
       inr (Server.json 200 (JsonComparison result))) ∧
    map CategoryResult.winner (ComparisonResult.categories result) =
      [Num 2; Num 1; Num 2; Num 1; Num 2; Num 1] ∧
    ComparisonResult.overall_winner result = Str "tie".
Proof. eexists. by vm_compute. Qed.

(** A repeated key reaches [Number] as an array: one element converts like
    the element itself, two elements join into a text that is no number. *)
Example repeated_key :
  Number (Some (QArray [QString "5"])) = inr (JS.of_Z 5) ∧
  Number (Some (QArray [QString "1"; QString "2"])) = inr JS.NaN ∧
  Number (Some (QObject [("a", QString "1")])) = inr JS.NaN ∧
  Number (Some (QObject [("toString", QString "1")])) =
    inl (TypeError "Cannot convert object to primitive value").
Proof. by vm_compute. Qed.

(** The powerstats of hero 2, as the route returns them. *)
Example scenario_powerstats :
  Server.get_powerstats sample_env (hero_request "2") =
    ([ReadFile "backend/data/superheroes.json"],
     inr (Server.json 200 (JsonPowerstats (stats 100 18 23 28 32 32)))).
Proof. by vm_compute. Qed.

(** Identifiers the single-hero route does not know, numeric or not. *)
Example scenario_unknown_hero :
  Server.get_superhero sample_env (hero_request "9999") =
    ([ReadFile "backend/data/superheroes.json"],
     inr (Server.send 404 "Superhero not found")) ∧
  Server.get_superhero sample_env (hero_request "abc") =
    ([ReadFile "backend/data/superheroes.json"],
     inr (Server.send 404 "Superhero not found")).
Proof. by vm_compute. Qed.

(** * Further properties *)

(** ** White space around an identifier *)

Section Whitespace.

Lemma list_ascii_of_string_app (s1 s2 : string) :
  list_ascii_of_string (s1 ++ s2) =
    (list_ascii_of_string s1 ++ list_ascii_of_string s2)%list.
Proof. induction s1 as [|c s1 IH]; simpl; by rewrite ?IH. Qed.

Lemma trim_start_app (l b : list ascii) :
  JS.trim_start (l ++ b)%list =
    match JS.trim_start l with
    | [] => JS.trim_start b
    | t => (t ++ b)%list
    end.
Proof.
  induction l as [|c l IH]; simpl.
  - by destruct (JS.trim_start b).
  - by destruct (JS.is_whitespace c).
Qed.

Lemma trim_start_blank (ws : list ascii) :
  forallb JS.is_whitespace ws = true → JS.trim_start ws = [].
Proof.
  induction ws as [|c ws IH]; [done|]. simpl.
  intros [-> Hws]%andb_true_iff. by apply IH.
Qed.

Lemma forallb_rev {A} (f : A → bool) (l : list A) :
  forallb f (rev l) = forallb f l.
Proof.
  induction l as [|x l IH]; [done|]. simpl.
  rewrite forallb_app, IH. simpl. rewrite andb_true_r. apply andb_comm.
Qed.

Lemma trim_padding (a l b : list ascii) :
  forallb JS.is_whitespace a = true →
  forallb JS.is_whitespace b = true →
  JS.trim (a ++ l ++ b)%list = JS.trim l.
Proof.
  intros Ha Hb. unfold JS.trim.
  rewrite (trim_start_app a), (trim_start_blank a Ha).
  rewrite (trim_start_app l).
  destruct (JS.trim_start l) as [|c t] eqn:Hl.
  - by rewrite (trim_start_blank b Hb).
  - rewrite rev_app_distr, (trim_start_app (rev b)).
    rewrite (trim_start_blank (rev b)); [done|].
    by rewrite forallb_rev.
Qed.

Lemma StringToNumber_padding (a s b : string) :
  blank a = true → blank b = true →
  JS.StringToNumber (a ++ s ++ b) = JS.StringToNumber s.
Proof.
  intros Ha Hb. unfold JS.StringToNumber.
  rewrite !list_ascii_of_string_app. by rewrite trim_padding.
Qed.

Lemma StringToNumber_blank (s : string) :
  blank s = true → JS.StringToNumber s = S754_zero false.
Proof.
  intros Hs. unfold JS.StringToNumber, JS.trim.
  by rewrite (trim_start_blank _ Hs).
Qed.

End Whitespace.

(** ** What the compare handler looks at *)

Section CompareInputs.

Variable env : Env.

(** The handler sees the request only through the two numbers its
    identifiers convert to. *)
Lemma get_compare_ext (req req' : Request) :
  Number (query req !! "id1") = Number (query req' !! "id1") →
  Number (query req !! "id2") = Number (query req' !! "id2") →
  Server.get_compare env req = Server.get_compare env req'.
Proof. intros H1 H2. unfold Server.get_compare. by rewrite H1, H2. Qed.

Lemma compare_query_id1 (v1 v2 : QueryValue) :
  query (compare_query v1 v2) !! "id1" = Some v1.
Proof. unfold compare_query. simpl. by rewrite lookup_insert_eq. Qed.

Lemma compare_query_id2 (v1 v2 : QueryValue) :
  query (compare_query v1 v2) !! "id2" = Some v2.
Proof.
  unfold compare_query. simpl.
  rewrite lookup_insert_ne; [|done]. by rewrite lookup_insert_eq.
Qed.

End CompareInputs.

(** X1. An identifier made of white space only, the empty text included,
    converts to the number 0: a comparison with such identifiers is
    answered exactly as the comparison of [0] with [0], so it is read from
    the catalog and never refused with 400. *)
Theorem blank_identifier_is_zero (env : Env) (s1 s2 : string) :
  blank s1 = true →
  blank s2 = true →
  Number (Some (QString s1)) = inr (S754_zero false) ∧
  Server.get_compare env (compare_query (QString s1) (QString s2)) =
    Server.get_compare env (compare_query (QString "0") (QString "0")) ∧
  ∃ tr resp,
    Server.get_compare env (compare_query (QString s1) (QString s2)) =
      (ReadFile (dataPath env) :: tr, inr resp) ∧
    status resp ≠ 400.
Proof.
  intros H1 H2.
  assert (Server.get_compare env (compare_query (QString s1) (QString s2)) =
          Server.get_compare env (compare_query (QString "0") (QString "0")))
    as Heq.
  { apply get_compare_ext.
    - rewrite !compare_query_id1. simpl. by rewrite StringToNumber_blank.
    - rewrite !compare_query_id2. simpl. by rewrite StringToNumber_blank. }
  split; [simpl; by rewrite StringToNumber_blank|].
  split; [done|]. rewrite Heq.
  assert (Number (query (compare_query (QString "0") (QString "0"))
                    !! "id1") = inr (S754_zero false)) as N1
    by (by vm_compute).
  assert (Number (query (compare_query (QString "0") (QString "0"))
                    !! "id2") = inr (S754_zero false)) as N2
    by (by vm_compute).
  assert (JS.isNaN (S754_zero false) || JS.isNaN (S754_zero false) = false)
    as Hv by done.
  destruct (load_cases env) as [[err Hl]|[superheroes Hl]].
  - rewrite (get_compare_rejected env _ _ _ N1 N2 err Hv Hl).
    by eexists _, _.
  - rewrite (get_compare_loaded env _ _ _ N1 N2 superheroes Hv Hl).
    eexists _, _. split; [done|]. by repeat case_match.
Qed.

Lemma blank_identifier_is_zero_witness :
  Server.get_compare sample_env
    (compare_query (QString "  ") (QString "")) =
  Server.get_compare sample_env
    (compare_query (QString "0") (QString "0")).
Proof.
  apply (blank_identifier_is_zero sample_env "  " ""); reflexivity.
Defined.

(** X2. White space before and after an identifier is ignored: padding
    either identifier of a comparison with blanks, tabs or line breaks
    changes nothing in the answer. *)
Theorem compare_ignores_padding
    (env : Env) (a1 s1 b1 a2 s2 b2 : string) :
  blank a1 = true → blank b1 = true →
  blank a2 = true → blank b2 = true →
  Server.get_compare env
    (compare_query (QString (a1 ++ s1 ++ b1)) (QString (a2 ++ s2 ++ b2))) =
  Server.get_compare env (compare_query (QString s1) (QString s2)).
Proof.
  intros Ha1 Hb1 Ha2 Hb2. apply get_compare_ext.
  - rewrite !compare_query_id1. simpl. by rewrite StringToNumber_padding.
  - rewrite !compare_query_id2. simpl. by rewrite StringToNumber_padding.
Qed.

Lemma compare_ignores_padding_witness :
  Server.get_compare sample_env
    (compare_query (QString (" " ++ "1" ++ "  ")) (QString ("" ++ "2" ++ " "))) =
  Server.get_compare sample_env (compare_query (QString "1") (QString "2")).
Proof.
  apply (compare_ignores_padding sample_env " " "1" "  " "" "2" " ");
    reflexivity.
Defined.

(** ** Printing an integer and reading it back *)

Section RoundTrip.

Lemma digit_not_whitespace (c : ascii) :
  is_decimal_digit c = true → JS.is_whitespace c = false.
Proof. by destruct c as [[] [] [] [] [] [] [] []]. Qed.

Lemma trim_start_head (c : ascii) (l : list ascii) :
  JS.is_whitespace c = false → JS.trim_start (c :: l) = c :: l.
Proof. simpl. by intros ->. Qed.

(** A text that neither starts nor ends with white space is its own
    trimming. *)
Lemma trim_solid (l : list ascii) :
  forallb (fun c => negb (JS.is_whitespace c)) l = true → JS.trim l = l.
Proof.
  intros Hl. unfold JS.trim.
  assert (∀ k, forallb (fun c => negb (JS.is_whitespace c)) k = true →
               JS.trim_start k = k) as Hstart.
  { intros [|c k]; [done|]. simpl.
    intros [Hc _]%andb_true_iff. by apply negb_true_iff in Hc as ->. }
  rewrite (Hstart l Hl), Hstart, ?rev_involutive; [done|].
  by rewrite forallb_rev.
Qed.

Lemma string_of_uint_solid (d : Decimal.uint) :
  forallb (fun c => negb (JS.is_whitespace c))
    (list_ascii_of_string (NilEmpty.string_of_uint d)) = true.
Proof. induction d; simpl; by rewrite ?IHd. Qed.

Lemma string_of_uint_digits (d : Decimal.uint) :
  JS.digits 10 (list_ascii_of_string (NilEmpty.string_of_uint d)) =
    (uint_values d, []).
Proof.
  induction d; [done|..];
    cbn [NilEmpty.string_of_uint list_ascii_of_string JS.digits uint_values];
    match goal with
    | |- context [JS.digit_value 10 ?c] =>
        change (JS.digit_value 10 c) with
          (Some (N_of_ascii c - 48)%N)
    end; by rewrite IHd.
Qed.

Lemma digits_value_acc (d : Decimal.uint) (acc : positive) :
  fold_left (fun a v => a * 10 + v)%N (uint_values d) (Npos acc) =
    Npos (Pos.of_uint_acc d acc).
Proof.
  revert acc. induction d; intros acc; [done|..];
    cbn [uint_values fold_left Pos.of_uint_acc];
    match goal with
    | |- fold_left _ _ ?x = _ =>
        match goal with
        | |- _ = Npos (Pos.of_uint_acc _ ?y) =>
            replace x with (Npos y) by lia
        end
    end; apply IHd.
Qed.

Lemma digits_value_uint (d : Decimal.uint) :
  JS.digits_value 10 (uint_values d) = Pos.of_uint d.
Proof.
  unfold JS.digits_value.
  induction d; [done| |..];
    cbn [uint_values fold_left Pos.of_uint]; [exact IHd|..];
    match goal with
    | |- fold_left _ _ ?x = _ =>
        match goal with
        | |- _ = Npos (Pos.of_uint_acc _ ?y) =>
            change x with (Npos y)
        end
    end; apply digits_value_acc.
Qed.

Lemma unsigned_decimal_uint (neg : bool) (d : Decimal.uint) :
  d ≠ Decimal.Nil →
  JS.unsigned_decimal neg
    (list_ascii_of_string (NilEmpty.string_of_uint d)) =
    JS.of_decimal neg (Pos.of_uint d) 0.
Proof.
  intros Hd. unfold JS.unsigned_decimal.
  rewrite string_of_list_ascii_of_string.
  assert (String.eqb (NilEmpty.string_of_uint d) "Infinity" = false) as ->
    by (by destruct d).
  rewrite string_of_uint_digits.
  assert (negb (length (uint_values d) =? 0)%nat = true) as ->
    by (by destruct d).
  cbn [JS.exponent_part]. by rewrite app_nil_r, digits_value_uint.
Qed.

Lemma StringToNumber_uint (d : Decimal.uint) :
  d ≠ Decimal.Nil →
  JS.StringToNumber (NilEmpty.string_of_uint d) =
    JS.of_decimal false (Pos.of_uint d) 0.
Proof.
  intros Hd. rewrite <- (unsigned_decimal_uint false d Hd).
  unfold JS.StringToNumber. rewrite (trim_solid _ (string_of_uint_solid d)).
  destruct d as [|d|d|d|d|d|d|d|d|d|d]; try done.
  destruct d; done.
Qed.

Lemma StringToNumber_minus_uint (d : Decimal.uint) :
  d ≠ Decimal.Nil →
  JS.StringToNumber (String "-" (NilEmpty.string_of_uint d)) =
    JS.of_decimal true (Pos.of_uint d) 0.
Proof.
  intros Hd. rewrite <- (unsigned_decimal_uint true d Hd).
  unfold JS.StringToNumber.
  rewrite (trim_solid (list_ascii_of_string
                         (String "-" (NilEmpty.string_of_uint d)))).
  - done.
  - simpl. apply string_of_uint_solid.
Qed.

Lemma string_of_uint_nonnil (d : Decimal.uint) :
  d ≠ Decimal.Nil → NilZero.string_of_uint d = NilEmpty.string_of_uint d.
Proof. by destruct d. Qed.

(** Reading all the digits of an integer gives its number. *)
Lemma StringToNumber_decimal (z : Z) :
  JS.StringToNumber (JS.decimal z) = JS.of_Z z.
Proof.
  unfold JS.decimal. destruct z as [|p|p]; [done|..].
  - change (JS.StringToNumber (NilZero.string_of_uint (Pos.to_uint p)) =
            JS.of_Z (Z.pos p)).
    pose proof (DecimalPos.Unsigned.to_uint_nonnil p) as Hp.
    rewrite (string_of_uint_nonnil _ Hp), (StringToNumber_uint _ Hp).
    rewrite DecimalPos.Unsigned.of_to.
    change (JS.of_decimal false (Npos p) 0) with
      (binary_normalize JS.prec JS.emax (Z.pos p * 10 ^ 0) 0 false).
    by rewrite Z.pow_0_r, Z.mul_1_r.
  - change (JS.StringToNumber
              (String "-" (NilZero.string_of_uint (Pos.to_uint p))) =
            JS.of_Z (Z.neg p)).
    pose proof (DecimalPos.Unsigned.to_uint_nonnil p) as Hp.
    rewrite (string_of_uint_nonnil _ Hp), (StringToNumber_minus_uint _ Hp).
    rewrite DecimalPos.Unsigned.of_to.
    change (JS.of_decimal true (Npos p) 0) with
      (binary_normalize JS.prec JS.emax (Z.neg p * 10 ^ 0) 0 false).
    by rewrite Z.pow_0_r, Z.mul_1_r.
Qed.

(** [Number(String(z))] is [z] again, for every integer below 2^53 in
    absolute value. *)
Lemma StringToNumber_String_of_Z (z : Z) :
  safe_integer z → JS.StringToNumber (JS.String_of_Z z) = JS.of_Z z.
Proof.
  intros Hz. rewrite (String_of_Z_safe z Hz). apply StringToNumber_decimal.
Qed.

End RoundTrip.

(** ** An integer is a number, and a number equals itself *)

Section IntegerNumbers.

Lemma iter_pos_invariant {A} (P : A → Prop) (f : A → A) :
  (∀ x, P x → P (f x)) → ∀ p x, P x → P (SpecFloat.iter_pos f p x).
Proof.
  intros Hf. induction p as [p IH|p IH|]; intros x Hx; simpl; auto.
Qed.

Lemma shr_1_nonneg (mrs : shr_record) :
  (0 ≤ shr_m mrs)%Z → (0 ≤ shr_m (shr_1 mrs))%Z.
Proof.
  destruct mrs as [m r s]. simpl.
  destruct m as [|[p|p|]|p]; simpl; lia.
Qed.

Lemma shr_nonneg (mrs : shr_record) (e n : Z) :
  (0 ≤ shr_m mrs)%Z → (0 ≤ shr_m (fst (shr mrs e n)))%Z.
Proof.
  intros Hm. unfold shr. destruct n as [|p|p]; simpl; try done.
  by apply (iter_pos_invariant (fun x => (0 ≤ shr_m x)%Z) shr_1 shr_1_nonneg).
Qed.

Lemma shr_fexp_nonneg (m e : Z) (l : location) :
  (0 ≤ m)%Z → (0 ≤ shr_m (fst (shr_fexp JS.prec JS.emax m e l)))%Z.
Proof.
  intros Hm. unfold shr_fexp. apply shr_nonneg.
  by destruct l as [|[]].
Qed.

Lemma round_nearest_even_nonneg (m : Z) (l : location) :
  (0 ≤ m)%Z → (0 ≤ round_nearest_even m l)%Z.
Proof.
  intros Hm. unfold round_nearest_even.
  destruct l as [|[]]; try done; [case_match|]; lia.
Qed.

Lemma binary_round_aux_is_number (sx : bool) (mx ex : Z) (lx : location) :
  (0 ≤ mx)%Z →
  JS.isNaN (binary_round_aux JS.prec JS.emax sx mx ex lx) = false.
Proof.
  intros Hm. unfold binary_round_aux.
  pose proof (shr_fexp_nonneg mx ex lx Hm) as H1.
  destruct (shr_fexp JS.prec JS.emax mx ex lx) as [mrs' e']. simpl in H1.
  pose proof (shr_fexp_nonneg _ e' loc_Exact
                (round_nearest_even_nonneg _ (loc_of_shr_record mrs') H1))
    as H2.
  destruct (shr_fexp JS.prec JS.emax _ e' loc_Exact) as [mrs'' e''].
  simpl in H2. destruct (shr_m mrs'') as [|m|m]; [done| |lia].
  by case_match.
Qed.

(** The number of an integer is never NaN. *)
Lemma of_Z_is_number (z : Z) : JS.isNaN (JS.of_Z z) = false.
Proof.
  unfold JS.of_Z, binary_normalize.
  destruct z as [|p|p]; [done|..]; unfold binary_round;
    destruct (shl_align _ _ _) as [mz ez];
    by apply binary_round_aux_is_number.
Qed.

Lemma strict_eq_refl (n : JS.number) :
  JS.isNaN n = false → JS.strict_eq n n = true.
Proof.
  destruct n as [s|s| |s m e]; try done; unfold JS.strict_eq, SFeqb; simpl.
  - by destruct s.
  - intros _. rewrite Z.compare_refl, Pos.compare_cont_refl.
    by destruct s.
Qed.

Lemma strict_eq_of_Z (z : Z) : JS.strict_eq (JS.of_Z z) (JS.of_Z z) = true.
Proof. apply strict_eq_refl, of_Z_is_number. Qed.

(** Different integers have different digits. *)
Lemma decimal_inj (z z' : Z) : JS.decimal z = JS.decimal z' → z = z'.
Proof.
  unfold JS.decimal. intros Heq.
  apply DecimalZ.to_int_inj.
  assert (∀ x, NilZero.int_of_string (NilZero.string_of_int (Z.to_int x)) =
               Some (Z.to_int x)) as Hback.
  { intros x. apply NilZero.isi; destruct x as [|p|p]; try done;
      simpl; intros [= Hp]; by apply DecimalPos.Unsigned.to_uint_nonnil in Hp. }
  pose proof (Hback z) as Hz. rewrite Heq, Hback in Hz. by injection Hz.
Qed.

(** [String] is injective on the integers below 2^53 in absolute
    value. *)
Lemma String_of_Z_inj (z z' : Z) :
  safe_integer z → safe_integer z' →
  JS.String_of_Z z = JS.String_of_Z z' → z = z'.
Proof.
  intros Hz Hz'. rewrite (String_of_Z_safe z Hz), (String_of_Z_safe z' Hz').
  apply decimal_inj.
Qed.

End IntegerNumbers.

(** X3. For integers below 2^53 in absolute value, printing with
    [String] and reading the text back with [Number] gives the number of
    that integer, which is never NaN; and two different such integers
    never print as the same text. *)
Theorem print_read_round_trip (z z' : Z) :
  safe_integer z →
  safe_integer z' →
  Number (Some (QString (JS.String_of_Z z))) = inr (JS.of_Z z) ∧
  JS.isNaN (JS.of_Z z) = false ∧
  (JS.String_of_Z z = JS.String_of_Z z' ↔ z = z').
Proof.
  intros Hz Hz'. simpl. rewrite (StringToNumber_String_of_Z z Hz).
  split; [done|]. split; [apply of_Z_is_number|].
  split; [by apply String_of_Z_inj | by intros ->].
Qed.

Lemma print_read_round_trip_witness :
  Number (Some (QString (JS.String_of_Z 9007199254740991))) =
    inr (JS.of_Z 9007199254740991) ∧
  JS.isNaN (JS.of_Z 9007199254740991) = false ∧
  (JS.String_of_Z 9007199254740991 = JS.String_of_Z (-12) ↔
   9007199254740991 = -12).
Proof.
  apply (print_read_round_trip 9007199254740991 (-12));
    unfold safe_integer; lia.
Defined.

(** From 2^53 on the number nearest to the id is printed, with its
    shortest digits: neighbouring ids print alike, and the exponent form
    starts at 10^21. *)
Example String_of_large_ids :
  JS.String_of_Z (2 ^ 53) = "9007199254740992" ∧
  JS.String_of_Z (2 ^ 53 + 1) = "9007199254740992" ∧
  JS.String_of_Z (2 ^ 60) = "1152921504606847000" ∧
  JS.String_of_Z (10 ^ 21 - 1) = "1e+21" ∧
  JS.String_of_Z (10 ^ 21) = "1e+21" ∧
  JS.String_of_Z (- 10 ^ 23) = "-1e+23" ∧
  JS.String_of_Z 123456789012345678901234567890 = "1.2345678901234568e+29".
Proof. by vm_compute. Qed.

(** A hero whose id is 2^60 is found under the text its id prints as, and
    not under all the digits of 2^60. *)
Example large_id_lookup :
  let env := env_with [hero (2 ^ 60) "Big" (stats 1 2 3 4 5 6)] in
  Server.get_superhero env (hero_request "1152921504606847000") =
    ([ReadFile "backend/data/superheroes.json"],
     inr (Server.json 200
            (JsonSuperhero (hero (2 ^ 60) "Big" (stats 1 2 3 4 5 6))))) ∧
  Server.get_superhero env (hero_request "1152921504606846976") =
    ([ReadFile "backend/data/superheroes.json"],
     inr (Server.send 404 "Superhero not found")).
Proof. by vm_compute. Qed.

(** ** Resolution by text and by number, together *)

Section Lookups.

Variable superheroes : list Superhero.t.

Lemma find_by_text_Some (s : string) (h : Superhero.t) :
  find_by_text superheroes (Some s) = Some h →
  h ∈ superheroes ∧ JS.String_of_Z (Superhero.id h) = s.
Proof.
  unfold find_by_text. intros [Hin Hp]%find_some.
  split; [by apply list_elem_of_In|].
  unfold Server.same_id_text in Hp. by apply String.eqb_eq in Hp.
Qed.

Lemma find_by_number_Some (n : JS.number) (h : Superhero.t) :
  find_by_number superheroes n = Some h →
  h ∈ superheroes ∧ JS.strict_eq (JS.of_Z (Superhero.id h)) n = true.
Proof.
  unfold find_by_number. intros [Hin Hp]%find_some.
  split; [by apply list_elem_of_In|done].
Qed.

(** A hero of the catalog is found by the number of its id, possibly
    through an earlier hero with an equal number. *)
Lemma find_by_number_member (h : Superhero.t) :
  h ∈ superheroes →
  ∃ h', find_by_number superheroes (JS.of_Z (Superhero.id h)) = Some h' ∧
        JS.strict_eq (JS.of_Z (Superhero.id h'))
          (JS.of_Z (Superhero.id h)) = true.
Proof.
  intros Hin.
  destruct (find_by_number superheroes (JS.of_Z (Superhero.id h)))
    as [h'|] eqn:Hf.
  - exists h'. split; [done|]. by apply find_by_number_Some in Hf as [_ ?].
  - unfold find_by_number in Hf. apply list_elem_of_In in Hin.
    pose proof (find_none _ _ Hf h Hin) as Hno. simpl in Hno.
    by rewrite strict_eq_of_Z in Hno.
Qed.

(** With pairwise different ids, a predicate that singles out one id finds
    the hero that carries it. *)
Lemma find_unique (P : Superhero.t → bool) (h : Superhero.t) :
  NoDup (map Superhero.id superheroes) →
  h ∈ superheroes →
  (∀ x, P x = true ↔ Superhero.id x = Superhero.id h) →
  find P superheroes = Some h.
Proof.
  intros Hnd Hin HP.
  induction superheroes as [|x l IH]; [by apply elem_of_nil in Hin|].
  simpl. apply NoDup_cons in Hnd as [Hx Hnd].
  apply elem_of_cons in Hin as [->|Hin].
  - by rewrite (proj2 (HP x) eq_refl).
  - destruct (P x) eqn:Hpx; [|by apply IH].
    apply HP in Hpx. exfalso. apply Hx. rewrite Hpx.
    apply list_elem_of_In in Hin. apply list_elem_of_In.
    by apply in_map.
Qed.

End Lookups.

Section OtherRoutesLoaded.

Variables (env : Env) (req : Request).

Lemma get_superheroes_loaded superheroes :
  loaded env superheroes →
  Server.get_superheroes env req =
    ([ReadFile (dataPath env)],
     inr (Server.json 200 (JsonSuperheroes superheroes))).
Proof.
  intros Hl. unfold Server.get_superheroes.
  by rewrite (load_resolved _ _ Hl).
Qed.

Lemma hero_request_param (s : string) :
  params (hero_request s) !! "id" = Some s.
Proof. apply lookup_singleton_eq. Qed.

End OtherRoutesLoaded.

(** X4. On a catalog whose ids are below 2^53 in absolute value, an
    identifier text that the single-hero route resolves is also resolved
    by the compare route: comparing that text with itself answers 200, and
    both echoed identifiers are the number of the id of the hero the
    single-hero route returned. *)
Theorem text_match_implies_number_match
    (env : Env) (superheroes : list Superhero.t) (s : string)
    (h : Superhero.t) :
  loaded env superheroes →
  Forall (fun h => safe_integer (Superhero.id h)) superheroes →
  Server.get_superhero env (hero_request s) =
    ([ReadFile (dataPath env)], inr (Server.json 200 (JsonSuperhero h))) →
  ∃ result,
    Server.get_compare env (compare_query (QString s) (QString s)) =
      ([ReadFile (dataPath env)],
       inr (Server.json 200 (JsonComparison result))) ∧
    ComparisonResult.id1 result = JS.of_Z (Superhero.id h) ∧
    ComparisonResult.id2 result = JS.of_Z (Superhero.id h).
Proof.
  intros Hl Hsafe Hrun.
  rewrite (get_superhero_loaded env _ _ Hl), hero_request_param in Hrun.
  destruct (find_by_text superheroes (Some s)) as [h0|] eqn:Hf;
    [|by simplify_eq].
  assert (h0 = h) as -> by (by simplify_eq).
  apply find_by_text_Some in Hf as [Hin <-].
  pose proof (proj1 (Forall_forall _ _) Hsafe h Hin) as Hh.
  destruct (find_by_number_member superheroes h Hin) as (h' & Hf' & _).
  assert (Number (Some (QString (JS.String_of_Z (Superhero.id h)))) =
          inr (JS.of_Z (Superhero.id h))) as Hnum
    by (simpl; by rewrite StringToNumber_String_of_Z).
  eexists. split.
  - apply (get_compare_found env _ (JS.of_Z (Superhero.id h))
             (JS.of_Z (Superhero.id h))
             ltac:(by rewrite compare_query_id1)
             ltac:(by rewrite compare_query_id2)
             superheroes h' h' Hl Hf' Hf').
  - by rewrite compare_heroes_eq.
Qed.

Lemma text_match_implies_number_match_witness :
  ∃ result,
    Server.get_compare sample_env (compare_query (QString "3") (QString "3")) =
      ([ReadFile "backend/data/superheroes.json"],
       inr (Server.json 200 (JsonComparison result))) ∧
    ComparisonResult.id1 result = JS.of_Z 3 ∧
    ComparisonResult.id2 result = JS.of_Z 3.
Proof.
  apply (text_match_implies_number_match sample_env sample_catalog "3"
           (hero 3 "Abin Sur" (stats 90 55 43 80 62 82))).
  - reflexivity.
  - unfold sample_catalog, safe_integer. repeat constructor.
  - vm_compute; reflexivity.
Defined.

(** X5. On a catalog whose ids are below 2^53 in absolute value the
    single-hero route is exact on ids. A request it answers with 200
    carries as its parameter precisely the printed id of the returned
    hero, and that hero is in the catalog; and for every integer [z] below
    2^53 in absolute value, the request for the printed [z] is answered
    200 exactly when some hero of the catalog has id [z]. *)
Theorem hero_route_exact
    (env : Env) (superheroes : list Superhero.t) :
  loaded env superheroes →
  Forall (fun h => safe_integer (Superhero.id h)) superheroes →
  (∀ req tr h,
     Server.get_superhero env req =
       (tr, inr (Server.json 200 (JsonSuperhero h))) →
     h ∈ superheroes ∧
     params req !! "id" = Some (JS.String_of_Z (Superhero.id h))) ∧
  (∀ z,
     safe_integer z →
     (∃ h, h ∈ superheroes ∧ Superhero.id h = z) ↔
     (∃ h, Server.get_superhero env (hero_request (JS.String_of_Z z)) =
             ([ReadFile (dataPath env)],
              inr (Server.json 200 (JsonSuperhero h))) ∧
           Superhero.id h = z)).
Proof.
  intros Hl Hsafe. split.
  - intros req tr h Hrun.
    rewrite (get_superhero_loaded env _ _ Hl) in Hrun.
    destruct (find_by_text superheroes (params req !! "id")) as [h0|] eqn:Hf;
      [|by simplify_eq].
    assert (h0 = h) as -> by (by simplify_eq).
    destruct (params req !! "id") as [s|] eqn:Hp.
    + by apply find_by_text_Some in Hf as [Hin <-].
    + exfalso. unfold find_by_text in Hf.
      apply find_some in Hf as [Hin Heq].
      unfold Server.same_id_text in Heq. apply String.eqb_eq in Heq.
      apply list_elem_of_In in Hin.
      pose proof (decimal_text_String_of_Z (Superhero.id h)
                    (proj1 (Forall_forall _ _) Hsafe h Hin)) as Hdec.
      by rewrite Heq in Hdec.
  - intros z Hz.
    rewrite (get_superhero_loaded env _ _ Hl), hero_request_param.
    split.
    + intros (h & Hin & Hid).
      destruct (find_by_text superheroes (Some (JS.String_of_Z z)))
        as [h'|] eqn:Hf.
      * exists h'. split; [done|].
        apply find_by_text_Some in Hf as [Hin' Heq].
        apply String_of_Z_inj; [|done..].
        by apply (proj1 (Forall_forall _ _) Hsafe).
      * unfold find_by_text in Hf. apply list_elem_of_In in Hin.
        pose proof (find_none _ _ Hf h Hin) as Hno.
        unfold Server.same_id_text in Hno. simpl in Hno.
        rewrite Hid, String.eqb_refl in Hno. done.
    + intros (h & Hrun & Hid).
      destruct (find_by_text superheroes (Some (JS.String_of_Z z)))
        as [h'|] eqn:Hf; [|by simplify_eq].
      assert (h' = h) as -> by (by simplify_eq).
      apply find_by_text_Some in Hf as [Hin _]. by exists h.
Qed.

Lemma hero_route_exact_witness :
  (∃ h, h ∈ sample_catalog ∧ Superhero.id h = 2) ↔
  (∃ h, Server.get_superhero sample_env (hero_request (JS.String_of_Z 2)) =
          ([ReadFile "backend/data/superheroes.json"],
           inr (Server.json 200 (JsonSuperhero h))) ∧
        Superhero.id h = 2).
Proof.
  apply (proj2 (hero_route_exact sample_env sample_catalog eq_refl
                  ltac:(unfold sample_catalog, safe_integer;
                        repeat constructor)) 2).
  unfold safe_integer. lia.
Defined.

(** X6. The list route returns the loaded catalog as it is, in order,
    whatever the request. When the ids of the catalog are pairwise
    different and below 2^53 in absolute value, every hero of that list is
    returned unchanged by the single-hero route asked for the hero's
    printed id, and the powerstats route returns that hero's
    powerstats. *)
Theorem listed_hero_is_fetchable
    (env : Env) (req : Request) (superheroes : list Superhero.t)
    (h : Superhero.t) :
  loaded env superheroes →
  NoDup (map Superhero.id superheroes) →
  Forall (fun h => safe_integer (Superhero.id h)) superheroes →
  h ∈ superheroes →
  Server.get_superheroes env req =
    ([ReadFile (dataPath env)],
     inr (Server.json 200 (JsonSuperheroes superheroes))) ∧
  Server.get_superhero env
      (hero_request (JS.String_of_Z (Superhero.id h))) =
    ([ReadFile (dataPath env)], inr (Server.json 200 (JsonSuperhero h))) ∧
  Server.get_powerstats env
      (hero_request (JS.String_of_Z (Superhero.id h))) =
    ([ReadFile (dataPath env)],
     inr (Server.json 200 (JsonPowerstats (Superhero.powerstats h)))).
Proof.
  intros Hl Hnd Hsafe Hin.
  assert (find_by_text superheroes
            (Some (JS.String_of_Z (Superhero.id h))) = Some h) as Hf.
  { unfold find_by_text.
    assert (∀ l, Forall (fun h => safe_integer (Superhero.id h)) l →
                 NoDup (map Superhero.id l) → h ∈ l →
                 find (Server.same_id_text
                         (Some (JS.String_of_Z (Superhero.id h)))) l = Some h)
      as Hgen; [|by apply Hgen].
    intros l Hl'. induction Hl' as [|x l Hx Hl' IH]; intros Hnd' Hin'.
    { by apply elem_of_nil in Hin'. }
    simpl in Hnd'. apply NoDup_cons in Hnd' as [Hnew Hnd'].
    simpl. unfold Server.same_id_text at 1. simpl.
    apply elem_of_cons in Hin' as [->|Hin'].
    - by rewrite String.eqb_refl.
    - destruct (String.eqb_spec (JS.String_of_Z (Superhero.id x))
                  (JS.String_of_Z (Superhero.id h))) as [Heq|_];
        [|by apply IH].
      exfalso. apply Hnew.
      apply String_of_Z_inj in Heq;
        [|done|by apply (proj1 (Forall_forall _ _) Hl')].
      rewrite Heq. apply list_elem_of_In, in_map.
      by apply list_elem_of_In. }
  split; [by apply get_superheroes_loaded|]. split.
  - by rewrite (get_superhero_loaded env _ _ Hl), hero_request_param, Hf.
  - by rewrite (get_powerstats_loaded env _ _ Hl), hero_request_param, Hf.
Qed.

Lemma listed_hero_is_fetchable_witness :
  Server.get_superhero sample_env (hero_request (JS.String_of_Z 3)) =
    ([ReadFile "backend/data/superheroes.json"],
     inr (Server.json 200
            (JsonSuperhero (hero 3 "Abin Sur" (stats 90 55 43 80 62 82))))).
Proof.
  apply (listed_hero_is_fetchable sample_env (hero_request "")
           sample_catalog (hero 3 "Abin Sur" (stats 90 55 43 80 62 82))).
  - reflexivity.
  - unfold sample_catalog. simpl.
    repeat (apply NoDup_cons; split;
            [intros Hin;
             repeat (apply elem_of_cons in Hin as [Hin|Hin]; [done|]);
             by apply elem_of_nil in Hin|]).
    apply NoDup_nil_2.
  - unfold sample_catalog, safe_integer. repeat constructor.
  - unfold sample_catalog. do 2 apply list_elem_of_further.
    apply list_elem_of_here.
Defined.

(** ** Every outcome of every route *)

(** X7. The compare route converts both identifiers before anything
    else, [id1] first. When a conversion throws, the handler rejects with
    the thrown error: no answer is sent, the data file is not read and
    nothing is logged. Otherwise it answers, with one of four statuses
    decided in this order: 400 exactly when a converted identifier is NaN;
    otherwise 500 exactly when the data file fails to load; otherwise 404
    or 200. The data file is read once, except for a 400, which is
    answered without reading it; the console is written to once for a 500
    and never otherwise. The catalog is an array of hero records, as
    [Env] has it. *)
Theorem compare_outcomes (env : Env) (req : Request) :
  match Number (query req !! "id1"), Number (query req !! "id2") with
  | inr id1, inr id2 =>
      ∃ tr resp,
        Server.get_compare env req = (tr, inr resp) ∧
        (status resp = 400 ∨ status resp = 500 ∨
         status resp = 404 ∨ status resp = 200) ∧
        (status resp = 400 ↔ JS.isNaN id1 || JS.isNaN id2 = true) ∧
        (status resp = 500 ↔
           JS.isNaN id1 || JS.isNaN id2 = false ∧
           ∃ err, snd (Server.loadSuperheroes env) = inl err) ∧
        reads tr = (if (status resp =? 400)%Z then 0%nat else 1%nat) ∧
        console_errors tr =
          (if (status resp =? 500)%Z then 1%nat else 0%nat)
  | inl thrown, _ | inr _, inl thrown =>
      Server.get_compare env req = ([], inl thrown)
  end.
Proof.
  destruct (Number (query req !! "id1")) as [e1|id1] eqn:N1.
  { by apply get_compare_throws_id1. }
  destruct (Number (query req !! "id2")) as [e2|id2] eqn:N2.
  { by apply (get_compare_throws_id2 env req id1). }
  destruct (JS.isNaN id1 || JS.isNaN id2) eqn:Hv.
  { rewrite (get_compare_invalid env req id1 id2 N1 N2 Hv). eexists _, _.
    split; [done|]. simpl. repeat split; try done; auto.
    by intros [? _]. }
  destruct (load_cases env) as [[err Hl]|[superheroes Hl]].
  { rewrite (get_compare_rejected env req id1 id2 N1 N2 err Hv Hl).
    eexists _, _.
    split; [done|]. simpl. repeat split; try done; auto. by exists err. }
  rewrite (get_compare_loaded env req id1 id2 N1 N2 superheroes Hv Hl).
  unfold loaded in Hl.
  eexists _, _. split; [done|].
  destruct (find_by_number superheroes id1) as [h1|];
    [destruct (find_by_number superheroes id2) as [h2|]|];
    simpl; repeat split; try done; auto;
    intros [_ [err Herr]]; by rewrite Hl in Herr.
Qed.

(** X8. The single-hero route and the powerstats route always answer,
    with the same status and after the same events: one read of the data
    file, and one console message exactly when the status is 500. The
    status is 200, 404 or 500; it is 200 exactly when the single-hero
    route returns a hero, and the powerstats route then returns the
    powerstats of that very hero. *)
Theorem single_hero_outcomes (env : Env) (req : Request) :
  ∃ tr resp resp',
    Server.get_superhero env req = (tr, inr resp) ∧
    Server.get_powerstats env req = (tr, inr resp') ∧
    status resp' = status resp ∧
    (status resp = 200 ∨ status resp = 404 ∨ status resp = 500) ∧
    reads tr = 1%nat ∧
    console_errors tr = (if (status resp =? 500)%Z then 1%nat else 0%nat) ∧
    (status resp = 200 ↔ ∃ h, body resp = JsonSuperhero h) ∧
    (∀ h, body resp = JsonSuperhero h →
          body resp' = JsonPowerstats (Superhero.powerstats h)).
Proof.
  destruct (load_cases env) as [[err Hl]|[superheroes Hl]].
  { rewrite (get_superhero_rejected env req err Hl),
            (get_powerstats_rejected env req err Hl).
    eexists _, _, _. do 2 (split; [done|]). simpl.
    repeat split; try done; auto. by intros [h ?]. }
  rewrite (get_superhero_loaded env req superheroes Hl),
          (get_powerstats_loaded env req superheroes Hl).
  eexists _, _, _. do 2 (split; [done|]).
  destruct (find_by_text superheroes _) as [h|]; simpl;
    repeat split; try done; auto.
  - by exists h.
  - by intros h' [= ->].
  - by intros [h ?].
Qed.

(** ** More on the comparison *)

Section Tallies.

Variables hero1 hero2 : Superhero.t.

(** Every record is won by the first hero, by the second, or tied. *)
Lemma wins_partition (cats : list string) :
  (wins (Num 1) (map (category_entry hero1 hero2) cats) +
   wins (Num 2) (map (category_entry hero1 hero2) cats) +
   wins (Str "tie") (map (category_entry hero1 hero2) cats))%nat =
  length cats.
Proof.
  induction cats as [|cat cats IH]; [done|].
  cbn [map length]. rewrite !wins_cons, category_entry_eq.
  cbn [CategoryResult.winner].
  destruct (JS.gt _ _); [|destruct (JS.gt _ _)];
    repeat case_decide; try done; lia.
Qed.

Lemma categories_length id1 id2 :
  length (ComparisonResult.categories
            (Server.compare_heroes id1 id2 hero1 hero2)) = 6%nat.
Proof. by rewrite compare_heroes_eq. Qed.

End Tallies.

(** X9. A powerstat that is missing on either hero does not fail the
    comparison: the record of that category is still produced, with the
    missing value absent, and it is a tie that counts for neither side. *)
Theorem missing_powerstat_ties
    (env : Env) (req : Request) (id1 id2 : JS.number)
    (superheroes : list Superhero.t)
    (hero1 hero2 : Superhero.t) (i : nat) (cat : string) :
  Number (query req !! "id1") = inr id1 →
  Number (query req !! "id2") = inr id2 →
  loaded env superheroes →
  find_by_number superheroes id1 = Some hero1 →
  find_by_number superheroes id2 = Some hero2 →
  Server.categoriesOrder !! i = Some cat →
  Superhero.powerstats hero1 !! cat = None ∨
  Superhero.powerstats hero2 !! cat = None →
  ∃ tr result r,
    Server.get_compare env req =
      (tr, inr (Server.json 200 (JsonComparison result))) ∧
    length (ComparisonResult.categories result) = 6%nat ∧
    ComparisonResult.categories result !! i = Some r ∧
    CategoryResult.name r = cat ∧
    CategoryResult.winner r = Str "tie" ∧
    CategoryResult.id1_value r = Superhero.powerstats hero1 !! cat ∧
    CategoryResult.id2_value r = Superhero.powerstats hero2 !! cat.
Proof.
  intros N1 N2 Hl H1 H2 Hcat Hmiss.
  eexists _, _, (category_entry hero1 hero2 cat).
  split;
    [exact (get_compare_found env req id1 id2 N1 N2 superheroes
              hero1 hero2 Hl H1 H2)|].
  split; [apply categories_length|].
  rewrite compare_heroes_eq. cbn [ComparisonResult.categories].
  split; [by rewrite list_lookup_fmap, Hcat|].
  rewrite category_entry_eq.
  cbn [CategoryResult.name CategoryResult.winner CategoryResult.id1_value
       CategoryResult.id2_value].
  repeat split.
  destruct Hmiss as [-> | ->]; simpl;
    by destruct (Superhero.powerstats _ !! cat).
Qed.

Lemma missing_powerstat_ties_witness :
  ∃ tr result r,
    Server.get_compare (env_with partial_catalog) (compare_request "1" "4") =
      (tr, inr (Server.json 200 (JsonComparison result))) ∧
    length (ComparisonResult.categories result) = 6%nat ∧
    ComparisonResult.categories result !! 2%nat = Some r ∧
    CategoryResult.name r = "speed" ∧
    CategoryResult.winner r = Str "tie" ∧
    CategoryResult.id1_value r =
      Superhero.powerstats (hero 1 "A-Bomb" (stats 38 100 17 80 24 64))
        !! "speed" ∧
    CategoryResult.id2_value r =
      Superhero.powerstats
        (hero 4 "Abomination" (delete "speed" (stats 63 80 53 90 55 95)))
        !! "speed".
Proof.
  apply (missing_powerstat_ties (env_with partial_catalog)
           (compare_request "1" "4") (JS.of_Z 1) (JS.of_Z 4) partial_catalog
           (hero 1 "A-Bomb" (stats 38 100 17 80 24 64))
           (hero 4 "Abomination" (delete "speed" (stats 63 80 53 90 55 95)))
           2 "speed");
    [vm_compute; reflexivity | vm_compute; reflexivity
    | vm_compute; reflexivity | vm_compute; reflexivity
    | vm_compute; reflexivity | vm_compute; reflexivity
    | right; vm_compute; reflexivity].
Defined.

(** X10. In a successful comparison the categories won by the first
    hero, those won by the second and the tied ones add up to six; a hero
    who wins four or more categories is the overall winner. *)
Theorem tally_accounts_for_six
    (env : Env) (req : Request) (tr : list Event)
    (result : ComparisonResult.t) :
  Server.get_compare env req =
    (tr, inr (Server.json 200 (JsonComparison result))) →
  let categories := ComparisonResult.categories result in
  (wins (Num 1) categories + wins (Num 2) categories
   + wins (Str "tie") categories = 6)%nat ∧
  ((4 ≤ wins (Num 1) categories)%nat →
   ComparisonResult.overall_winner result = Num 1) ∧
  ((4 ≤ wins (Num 2) categories)%nat →
   ComparisonResult.overall_winner result = Num 2).
Proof.
  intros Hrun.
  destruct (get_compare_success_inv env req tr _ Hrun eq_refl)
    as (id1 & id2 & superheroes & hero1 & hero2 &
        _ & _ & _ & _ & _ & _ & Hresp).
  injection Hresp as ->. rewrite compare_heroes_eq.
  cbn [ComparisonResult.categories ComparisonResult.overall_winner].
  pose proof (wins_partition hero1 hero2 Server.categoriesOrder) as Hsum.
  change (length Server.categoriesOrder) with 6%nat in Hsum.
  set (winsA := wins (Num 1) _) in *. set (winsB := wins (Num 2) _) in *.
  split; [done|].
  destruct (Nat.ltb_spec winsB winsA), (Nat.ltb_spec winsA winsB);
    split; intros; try done; lia.
Qed.

Lemma tally_accounts_for_six_witness :
  let categories :=
    ComparisonResult.categories
      (Server.compare_heroes (JS.of_Z 3) (JS.of_Z 2)
         (hero 3 "Abin Sur" (stats 90 55 43 80 62 82))
         (hero 2 "Abe Sapien" (stats 100 18 23 28 32 32))) in
  (wins (Num 1) categories + wins (Num 2) categories
   + wins (Str "tie") categories = 6)%nat.
Proof.
  apply (tally_accounts_for_six sample_env (compare_request "3" "2")
           [ReadFile "backend/data/superheroes.json"]).
  vm_compute; reflexivity.
Defined.

Section Dependence.

Lemma category_entry_agree (h1 h2 h1' h2' : Superhero.t) (cat : string) :
  Superhero.powerstats h1 !! cat = Superhero.powerstats h1' !! cat →
  Superhero.powerstats h2 !! cat = Superhero.powerstats h2' !! cat →
  category_entry h1 h2 cat = category_entry h1' h2' cat.
Proof. intros E1 E2. by rewrite !category_entry_eq, E1, E2. Qed.

(** Raising the first hero's value turns no record against that hero. *)
Lemma wins_monotone (h1 h1' h2 : Superhero.t) (cats : list string) :
  (∀ cat, cat ∈ cats → ∃ a a' : Z,
     Superhero.powerstats h1 !! cat = Some a ∧
     Superhero.powerstats h1' !! cat = Some a' ∧ (a ≤ a')%Z) →
  (wins (Num 1) (map (category_entry h1 h2) cats) ≤
   wins (Num 1) (map (category_entry h1' h2) cats))%nat ∧
  (wins (Num 2) (map (category_entry h1' h2) cats) ≤
   wins (Num 2) (map (category_entry h1 h2) cats))%nat.
Proof.
  induction cats as [|cat cats IH]; intros Hup; [done|].
  destruct IH as [IH1 IH2].
  { intros c Hc. apply Hup. by apply list_elem_of_further. }
  destruct (Hup cat (list_elem_of_here _ _)) as (a & a' & Ha & Ha' & Hle).
  cbn [map]. rewrite !wins_cons, !category_entry_eq, Ha, Ha'.
  cbn [CategoryResult.winner].
  destruct (Superhero.powerstats h2 !! cat) as [b|]; simpl.
  - destruct (Z.ltb_spec b a), (Z.ltb_spec a b), (Z.ltb_spec b a'),
      (Z.ltb_spec a' b); try lia; repeat case_decide; try done; lia.
  - repeat case_decide; try done; lia.
Qed.

End Dependence.

(** X11. The comparison reads nothing of a hero but six entries of its
    powerstats: two pairs of heroes that agree on the values of the six
    categories give the same result, whatever their names, images, ids or
    further powerstats entries. *)
Theorem comparison_reads_six_values
    (id1 id2 : JS.number) (h1 h2 h1' h2' : Superhero.t) :
  (∀ cat, cat ∈ Server.categoriesOrder →
     Superhero.powerstats h1 !! cat = Superhero.powerstats h1' !! cat) →
  (∀ cat, cat ∈ Server.categoriesOrder →
     Superhero.powerstats h2 !! cat = Superhero.powerstats h2' !! cat) →
  Server.compare_heroes id1 id2 h1 h2 =
    Server.compare_heroes id1 id2 h1' h2'.
Proof.
  intros E1 E2. rewrite !compare_heroes_eq.
  assert (map (category_entry h1 h2) Server.categoriesOrder =
          map (category_entry h1' h2') Server.categoriesOrder) as ->; [|done].
  apply map_ext_in. intros cat Hin%list_elem_of_In.
  apply category_entry_agree; auto.
Qed.

Lemma comparison_reads_six_values_witness :
  Server.compare_heroes (JS.of_Z 1) (JS.of_Z 2)
    (hero 1 "A-Bomb" (stats 38 100 17 80 24 64))
    (hero 2 "Abe Sapien" (stats 100 18 23 28 32 32)) =
  Server.compare_heroes (JS.of_Z 1) (JS.of_Z 2)
    (hero 8 "Somebody" (<["weight" := 441]> (stats 38 100 17 80 24 64)))
    (hero 2 "Abe Sapien" (stats 100 18 23 28 32 32)).
Proof.
  apply comparison_reads_six_values;
    intros cat Hin;
    repeat (apply elem_of_cons in Hin as [->|Hin]; [by vm_compute|]);
    by apply elem_of_nil in Hin.
Defined.

(** X12. Raising values of the first hero never costs that hero the
    comparison: if every category value of the first hero is replaced by
    one at least as large, an overall win stays a win, and a result that
    was not a loss does not become one. *)
Theorem raising_stats_keeps_victory
    (id1 id2 : JS.number) (h1 h1' h2 : Superhero.t) :
  (∀ cat, cat ∈ Server.categoriesOrder → ∃ a a' : Z,
     Superhero.powerstats h1 !! cat = Some a ∧
     Superhero.powerstats h1' !! cat = Some a' ∧ (a ≤ a')%Z) →
  (ComparisonResult.overall_winner (Server.compare_heroes id1 id2 h1 h2)
     = Num 1 →
   ComparisonResult.overall_winner (Server.compare_heroes id1 id2 h1' h2)
     = Num 1) ∧
  (ComparisonResult.overall_winner (Server.compare_heroes id1 id2 h1 h2)
     ≠ Num 2 →
   ComparisonResult.overall_winner (Server.compare_heroes id1 id2 h1' h2)
     ≠ Num 2).
Proof.
  intros Hup. rewrite !compare_heroes_eq.
  cbn [ComparisonResult.overall_winner].
  destruct (wins_monotone h1 h1' h2 Server.categoriesOrder Hup) as [HA HB].
  set (a := wins (Num 1) (map (category_entry h1 h2) _)) in *.
  set (b := wins (Num 2) (map (category_entry h1 h2) _)) in *.
  set (a' := wins (Num 1) (map (category_entry h1' h2) _)) in *.
  set (b' := wins (Num 2) (map (category_entry h1' h2) _)) in *.
  destruct (Nat.ltb_spec b a), (Nat.ltb_spec a b), (Nat.ltb_spec b' a'),
    (Nat.ltb_spec a' b'); split; intros; try done; lia.
Qed.

Lemma raising_stats_keeps_victory_witness :
  ComparisonResult.overall_winner
    (Server.compare_heroes (JS.of_Z 3) (JS.of_Z 2)
       (hero 3 "Abin Sur" (stats 95 55 43 80 62 82))
       (hero 2 "Abe Sapien" (stats 100 18 23 28 32 32))) = Num 1.
Proof.
  apply (proj1 (raising_stats_keeps_victory (JS.of_Z 3) (JS.of_Z 2)
                  (hero 3 "Abin Sur" (stats 90 55 43 80 62 82))
                  (hero 3 "Abin Sur" (stats 95 55 43 80 62 82))
                  (hero 2 "Abe Sapien" (stats 100 18 23 28 32 32))
                  ltac:(intros cat Hin;
                        repeat (apply elem_of_cons in Hin as [->|Hin];
                          [eexists _, _; split; [vm_compute; reflexivity|];
                           split; [vm_compute; reflexivity|]; by vm_compute|]);
                        by apply elem_of_nil in Hin))).
  vm_compute; reflexivity.
Defined.

(** ** Identifiers that are not plain texts *)

(** X13. An identifier that reaches the handler as a nested object never
    gets past validation. An object with an own property named [toString]
    makes the conversion throw: the handler rejects with a TypeError,
    without an answer. Any other object converts to NaN and, unless the
    conversion of the other identifier throws, is refused with 400 before
    the data file is read. The first identifier is converted first, so its
    error is the one reported. An identifier that reaches the handler as an
    array of one element is treated exactly as that element. *)
Theorem structured_identifiers
    (env : Env) (v1 v2 : QueryValue) (fields : list (string * QueryValue)) :
  let own_toString :=
    existsb (fun f => String.eqb (fst f) "toString") fields in
  let thrown := TypeError "Cannot convert object to primitive value" in
  let refused : Async Response :=
    ([], inr (Server.json 400 (JsonError
       "Both id1 and id2 query parameters must be valid numbers."))) in
  Server.get_compare env (compare_query (QObject fields) v2) =
    (if own_toString then ([], inl thrown)
     else match ToString v2 with
          | inl err => ([], inl err)
          | inr _ => refused
          end) ∧
  Server.get_compare env (compare_query v1 (QObject fields)) =
    (match ToString v1 with
     | inl err => ([], inl err)
     | inr _ => if own_toString then ([], inl thrown) else refused
     end) ∧
  Server.get_compare env (compare_query (QArray [v1]) (QArray [v2])) =
    Server.get_compare env (compare_query v1 v2).
Proof.
  intros own_toString thrown refused.
  assert (Number (Some (QObject fields)) =
          if own_toString then inl thrown else inr JS.NaN) as Hobj.
  { unfold Number, ToString. fold own_toString.
    by destruct own_toString. }
  split; [|split].
  - destruct own_toString eqn:Hown.
    + apply get_compare_throws_id1. by rewrite compare_query_id1.
    + destruct (ToString v2) as [err|s2] eqn:Hs2.
      * apply (get_compare_throws_id2 _ _ JS.NaN).
        -- by rewrite compare_query_id1.
        -- rewrite compare_query_id2. unfold Number. by rewrite Hs2.
      * apply (get_compare_invalid _ _ JS.NaN (JS.StringToNumber s2));
          [by rewrite compare_query_id1| |done].
        rewrite compare_query_id2. unfold Number. by rewrite Hs2.
  - destruct (ToString v1) as [err|s1] eqn:Hs1.
    + apply get_compare_throws_id1. rewrite compare_query_id1.
      unfold Number. by rewrite Hs1.
    + assert (Number (query (compare_query v1 (QObject fields)) !! "id1") =
              inr (JS.StringToNumber s1)) as N1.
      { rewrite compare_query_id1. unfold Number. by rewrite Hs1. }
      destruct own_toString eqn:Hown.
      * apply (get_compare_throws_id2 _ _ _ _ N1).
        by rewrite compare_query_id2.
      * apply (get_compare_invalid _ _ _ JS.NaN N1);
          [by rewrite compare_query_id2|].
        apply orb_true_r.
  - apply get_compare_ext.
    + by rewrite !compare_query_id1.
    + by rewrite !compare_query_id2.
Qed.

(** The two sides of X13 on a request: an own [toString] throws, any
    other object is refused. *)
Example object_identifiers (env : Env) :
  Server.get_compare env
      (compare_query (QObject [("toString", QString "1")]) (QString "2")) =
    ([], inl (TypeError "Cannot convert object to primitive value")) ∧
  Server.get_compare env
      (compare_query (QObject [("a", QString "1")]) (QString "2")) =
    ([], inr (Server.json 400 (JsonError
       "Both id1 and id2 query parameters must be valid numbers."))).
Proof. split; reflexivity. Qed.

(** ** What a successful comparison compares *)

(** X15. A 200 answer of the compare route is always a comparison of two
    heroes of the loaded catalog: the echoed identifiers are strictly
    equal, as numbers, to the ids of these two heroes, and in every record
    the two values are what the two heroes' powerstats hold under the
    record's name. The data file was read once and nothing was logged. *)
Theorem comparison_is_of_catalog_heroes
    (env : Env) (req : Request) (superheroes : list Superhero.t)
    (tr : list Event) (result : ComparisonResult.t) :
  loaded env superheroes →
  Server.get_compare env req =
    (tr, inr (Server.json 200 (JsonComparison result))) →
  tr = [ReadFile (dataPath env)] ∧
  ∃ hero1 hero2,
    hero1 ∈ superheroes ∧ hero2 ∈ superheroes ∧
    JS.strict_eq (JS.of_Z (Superhero.id hero1))
      (ComparisonResult.id1 result) = true ∧
    JS.strict_eq (JS.of_Z (Superhero.id hero2))
      (ComparisonResult.id2 result) = true ∧
    Forall (fun r =>
              CategoryResult.id1_value r =
                Superhero.powerstats hero1 !! CategoryResult.name r ∧
              CategoryResult.id2_value r =
                Superhero.powerstats hero2 !! CategoryResult.name r)
      (ComparisonResult.categories result).
Proof.
  intros Hl Hrun.
  destruct (get_compare_success_inv env req tr _ Hrun eq_refl)
    as (id1 & id2 & l & hero1 & hero2 & _ & _ & Hl' & H1 & H2 & -> & Hresp).
  unfold loaded in Hl, Hl'. rewrite Hl in Hl'. injection Hl' as <-.
  injection Hresp as ->. split; [done|].
  apply find_by_number_Some in H1 as [Hin1 Heq1].
  apply find_by_number_Some in H2 as [Hin2 Heq2].
  exists hero1, hero2. rewrite compare_heroes_eq.
  cbn [ComparisonResult.id1 ComparisonResult.id2 ComparisonResult.categories].
  repeat split; try done.
  apply Forall_forall. intros r [cat [<- _]]%list_elem_of_In%in_map_iff.
  by rewrite category_entry_eq.
Qed.

Lemma comparison_is_of_catalog_heroes_witness :
  [ReadFile "backend/data/superheroes.json"] =
    [ReadFile (dataPath sample_env)] ∧
  ∃ hero1 hero2,
    hero1 ∈ sample_catalog ∧ hero2 ∈ sample_catalog ∧
    JS.strict_eq (JS.of_Z (Superhero.id hero1))
      (ComparisonResult.id1
         (Server.compare_heroes (JS.of_Z 10) (JS.of_Z 2)
            (hero 10 "Agent Bob" (stats 10 8 13 5 5 20))
            (hero 2 "Abe Sapien" (stats 100 18 23 28 32 32)))) = true ∧
    JS.strict_eq (JS.of_Z (Superhero.id hero2))
      (ComparisonResult.id2
         (Server.compare_heroes (JS.of_Z 10) (JS.of_Z 2)
            (hero 10 "Agent Bob" (stats 10 8 13 5 5 20))
            (hero 2 "Abe Sapien" (stats 100 18 23 28 32 32)))) = true ∧
    Forall (fun r =>
              CategoryResult.id1_value r =
                Superhero.powerstats hero1 !! CategoryResult.name r ∧
              CategoryResult.id2_value r =
                Superhero.powerstats hero2 !! CategoryResult.name r)
      (ComparisonResult.categories
         (Server.compare_heroes (JS.of_Z 10) (JS.of_Z 2)
            (hero 10 "Agent Bob" (stats 10 8 13 5 5 20))
            (hero 2 "Abe Sapien" (stats 100 18 23 28 32 32)))).
Proof.
  apply (comparison_is_of_catalog_heroes sample_env
           (compare_request " 1e1" "0x2") sample_catalog);
    vm_compute; reflexivity.
Defined.

(** ** The listening port *)

(** X14. The port is [TEST_PORT] whenever that variable is set to a
    non-empty text, whatever [PORT] holds; a [TEST_PORT] that is unset or
    empty gives way to [PORT] under the same rule; when neither holds a
    non-empty text the port is the number 3000. The port is never the
    empty text. *)
Theorem port_selection (process_env : gmap string string) :
  (∀ s, s ≠ "" → process_env !! "TEST_PORT" = Some s →
        Process.PORT process_env = Process.PortText s) ∧
  (∀ s, s ≠ "" →
        (process_env !! "TEST_PORT" = None ∨
         process_env !! "TEST_PORT" = Some "") →
        process_env !! "PORT" = Some s →
        Process.PORT process_env = Process.PortText s) ∧
  ((process_env !! "TEST_PORT" = None ∨
    process_env !! "TEST_PORT" = Some "") →
   (process_env !! "PORT" = None ∨ process_env !! "PORT" = Some "") →
   Process.PORT process_env = Process.PortNumber 3000) ∧
  Process.PORT process_env ≠ Process.PortText "".
Proof.
  unfold Process.PORT, Process.or_variable, Process.or_default.
  repeat split.
  - intros s Hs ->. by destruct s.
  - intros s Hs [-> | ->] ->; by destruct s.
  - by intros [-> | ->] [-> | ->].
  - destruct (process_env !! "TEST_PORT") as [[|c s]|];
      destruct (process_env !! "PORT") as [[|c' s']|]; done.
Qed.

(** ** Catalogs with a repeated id *)

Section Shadowing.

Lemma find_app_first {A} (P : A → bool) (l1 l2 : list A) (x y : A) :
  P x = true → find P (l1 ++ x :: l2)%list = Some y → y ∈ (l1 ++ [x])%list.
Proof.
  intros Hx. induction l1 as [|z l1 IH]; simpl.
  - rewrite Hx. intros [= <-]. apply list_elem_of_here.
  - destruct (P z); [intros [= <-]; apply list_elem_of_here|].
    intros Hf. apply list_elem_of_further. by apply IH.
Qed.

End Shadowing.

(** X16. When two heroes of the catalog carry the same id, the later one
    is shadowed: no request to the single-hero route is ever answered
    with it, because the route returns the first hero whose printed id
    matches. *)
Theorem repeated_id_shadows_later_hero
    (env : Env) (before after : list Superhero.t)
    (first later : Superhero.t) :
  loaded env (before ++ first :: after)%list →
  Superhero.id later = Superhero.id first →
  later ∉ (before ++ [first])%list →
  ∀ req tr,
    Server.get_superhero env req ≠
      (tr, inr (Server.json 200 (JsonSuperhero later))).
Proof.
  intros Hl Hid Hnew req tr Hrun.
  rewrite (get_superhero_loaded env req _ Hl) in Hrun.
  destruct (find_by_text _ _) as [h|] eqn:Hf; [|by simplify_eq].
  assert (h = later) as -> by (by simplify_eq).
  unfold find_by_text in Hf. apply Hnew.
  assert (Server.same_id_text (params req !! "id") first = true) as Hfirst.
  { apply find_some in Hf as [_ Hp].
    unfold Server.same_id_text in *. by rewrite <- Hid. }
  by apply (find_app_first _ _ _ _ _ Hfirst Hf).
Qed.

Lemma repeated_id_shadows_later_hero_witness :
  Server.get_superhero
    (env_with [hero 1 "A-Bomb" (stats 38 100 17 80 24 64);
               hero 1 "Abe Sapien" (stats 100 18 23 28 32 32)])
    (hero_request "1") ≠
  ([ReadFile "backend/data/superheroes.json"],
   inr (Server.json 200
          (JsonSuperhero (hero 1 "Abe Sapien" (stats 100 18 23 28 32 32))))).
Proof.
  apply (repeated_id_shadows_later_hero
           (env_with [hero 1 "A-Bomb" (stats 38 100 17 80 24 64);
                      hero 1 "Abe Sapien" (stats 100 18 23 28 32 32)])
           [] [hero 1 "Abe Sapien" (stats 100 18 23 28 32 32)]
           (hero 1 "A-Bomb" (stats 38 100 17 80 24 64))
           (hero 1 "Abe Sapien" (stats 100 18 23 28 32 32))).
  - reflexivity.
  - reflexivity.
  - intros Hin. apply elem_of_cons in Hin as [Heq|Hin].
    + discriminate Heq.
    + by apply elem_of_nil in Hin.
Defined.

(** ** The overall winner is not an order *)

(** X17. Winning overall is not transitive: there are three heroes, with
    all six powerstats between 0 and 100, of which the first beats the
    second, the second beats the third, and the third beats the first. *)
Theorem overall_winner_not_transitive :
  ∃ a b c : Superhero.t,
    (∀ h cat, h ∈ [a; b; c] → cat ∈ Server.categoriesOrder →
       ∃ v : Z, Superhero.powerstats h !! cat = Some v ∧ (0 ≤ v ≤ 100)%Z) ∧
    (∀ id1 id2, ComparisonResult.overall_winner
       (Server.compare_heroes id1 id2 a b) = Num 1) ∧
    (∀ id1 id2, ComparisonResult.overall_winner
       (Server.compare_heroes id1 id2 b c) = Num 1) ∧
    (∀ id1 id2, ComparisonResult.overall_winner
       (Server.compare_heroes id1 id2 c a) = Num 1).
Proof.
  exists (hero 21 "Rock" (stats 30 10 20 30 10 20)),
         (hero 22 "Scissors" (stats 20 30 10 20 30 10)),
         (hero 23 "Paper" (stats 10 20 30 10 20 30)).
  split; [|by repeat split; intros id1 id2; vm_compute].
  intros h cat Hh Hcat.
  repeat (apply elem_of_cons in Hh as [->|Hh];
    [repeat (apply elem_of_cons in Hcat as [->|Hcat];
       [eexists; split; [vm_compute; reflexivity|lia]|]);
     by apply elem_of_nil in Hcat|]).
  by apply elem_of_nil in Hh.
Qed.

(** ** The list route *)

(** X18. The list route always answers, after one read of the data file:
    with 200 and the whole catalog, in order and possibly empty, when the
    file loads, and with 500 and one console message when it does not.
    Nothing in the request changes the answer. *)
Theorem list_route_outcomes (env : Env) (req req' : Request) :
  Server.get_superheroes env req = Server.get_superheroes env req' ∧
  ∃ tr resp,
    Server.get_superheroes env req = (tr, inr resp) ∧
    reads tr = 1%nat ∧
    console_errors tr = (if (status resp =? 500)%Z then 1%nat else 0%nat) ∧
    (status resp = 200 ∨ status resp = 500) ∧
    (∀ superheroes, loaded env superheroes ↔
                    resp = Server.json 200 (JsonSuperheroes superheroes)) ∧
    ((∃ err, snd (Server.loadSuperheroes env) = inl err) ↔
     resp = Server.send 500 "Internal Server Error").
Proof.
  split; [done|].
  destruct (load_cases env) as [[err Hl]|[superheroes Hl]].
  - rewrite (get_superheroes_rejected env req err Hl). eexists _, _.
    split; [done|]. simpl. repeat split; try done; auto.
    + intros Hl'. unfold loaded in Hl'. by rewrite Hl in Hl'.
    + by exists err.
  - rewrite (get_superheroes_loaded env req superheroes Hl). eexists _, _.
    split; [done|]. simpl. repeat split; try done; auto.
    + intros Hl'. unfold loaded in Hl, Hl'. rewrite Hl in Hl'.
      by injection Hl' as ->.
    + by intros [= <-].
    + intros [err Herr]. unfold loaded in Hl. by rewrite Hl in Herr.
Qed.
